(** * tensorflow_datasets/core/utils/version.py

    A shallow embedding of the [Version] utility (MAJOR.MINOR.PATCH dataset
    versions) and the properties its description states about it.

    Conventions of the embedding.
    - A Python [str] is a [string]; its characters are the 256 values of
      [ascii].  On that range the class [\d] of [re] is exactly ['0'..'9'].
    - A Python [int] is a [Z]: unbounded, and without the limit that
      recent interpreters put on the length of a numeral.
    - An exception is a value of [exn]; code that may raise returns a
      [result].
    - Objects that the code creates or mutates (the class attribute
      [_DEFAULT_FEATURES], the per-instance dict, the instances) live in an
      explicit [heap]; methods are computations of the monad [M].
    - The interpreter is Python 3: [!=] is the negation of [__eq__], and
      comparing an [int] with a [str] by [<] raises [TypeError]. *)

From Stdlib Require Import ZArith Ascii String DecimalString DecimalZ DecimalN DecimalPos.
From stdpp Require Import base gmap list strings fin_maps.

Local Open Scope string_scope.
Local Open Scope Z_scope.

#[local] Arguments String.append : simpl nomatch.

(** ** Exceptions and results *)

(** Keys of a feature dict.  [Feature] is the enumeration of the source;
    a [dict] takes any hashable key, of which the model keeps enumeration
    members, integers and strings. *)
Inductive Feature := DUMMY.

Inductive key :=
| KFeature (f : Feature)
| KInt (n : Z)
| KStr (s : string).

Inductive exn :=
| ValueError (msg : string)
| AssertionError (msg : string)
| KeyError (k : key)
| TypeError (msg : string)
| SystemError (msg : string).   (* a reference to no object: never raised
                                   on a reference the code obtained *)

Inductive result (A : Type) :=
| OK (a : A)
| Raise (e : exn).
Arguments OK {A} a.
Arguments Raise {A} e.

Definition rbind {A B} (r : result A) (f : A -> result B) : result B :=
  match r with
  | OK a => f a
  | Raise e => Raise e
  end.

(** ** The fragment of [re] that the version template uses *)

Module Re.

Inductive regex :=
| Bol                              (* ^ *)
| Eol                              (* $ *)
| Lit (c : ascii)                  (* an escaped literal: \. or \* *)
| Plus (cls : ascii -> bool)       (* cls+ , greedy, cls a one-character class *)
| Alt (r1 r2 : regex)              (* r1|r2 *)
| Seq (r1 r2 : regex)              (* r1r2 *)
| Group (name : string) (r : regex). (* (?P<name>r) *)

(** [\d] *)
Definition is_digit (c : ascii) : bool :=
  match c with
  | "0" | "1" | "2" | "3" | "4" | "5" | "6" | "7" | "8" | "9" => true
  | _ => false
  end%char.

Definition newline : ascii := "010"%char.

(** The spans of the named groups, the innermost-latest first. *)
Definition captures := list (string * (nat * nat)).

(** What is left to match: the position, the rest of the subject and the
    groups closed so far. *)
Definition cont := nat -> string -> captures -> option captures.

(** After one character of the class: take as many more as possible and
    give one back at a time while the continuation fails. *)
Fixpoint greedy (cls : ascii -> bool) (pos : nat) (rest : string)
    (caps : captures) (k : cont) : option captures :=
  match rest with
  | String c rest' =>
      if cls c then
        match greedy cls (S pos) rest' caps k with
        | Some m => Some m
        | None => k pos rest caps
        end
      else k pos rest caps
  | EmptyString => k pos rest caps
  end.

(** The backtracking matcher.  [$] holds at the end of the subject and
    just before a newline that ends it (no MULTILINE flag). *)
Fixpoint run (r : regex) (pos : nat) (rest : string) (caps : captures)
    (k : cont) : option captures :=
  match r with
  | Bol => if Nat.eqb pos 0 then k pos rest caps else None
  | Eol =>
      match rest with
      | EmptyString => k pos rest caps
      | String c EmptyString =>
          if Ascii.eqb c newline then k pos rest caps else None
      | _ => None
      end
  | Lit c =>
      match rest with
      | String c' rest' =>
          if Ascii.eqb c c' then k (S pos) rest' caps else None
      | EmptyString => None
      end
  | Plus cls =>
      match rest with
      | String c rest' =>
          if cls c then greedy cls (S pos) rest' caps k else None
      | EmptyString => None
      end
  | Alt r1 r2 =>
      match run r1 pos rest caps k with
      | Some m => Some m
      | None => run r2 pos rest caps k
      end
  | Seq r1 r2 =>
      run r1 pos rest caps (fun pos' rest' caps' => run r2 pos' rest' caps' k)
  | Group name r =>
      run r pos rest caps
        (fun pos' rest' caps' => k pos' rest' ((name, (pos, pos')) :: caps'))
  end.

(** A match object: the subject and the spans of its groups. *)
Record match_obj := { subject : string; spans : captures }.

(** [reg.match(s)]: anchored at the start, not at the end. *)
Definition re_match (r : regex) (s : string) : option match_obj :=
  match run r 0 s [] (fun _ _ caps => Some caps) with
  | Some caps => Some {| subject := s; spans := caps |}
  | None => None
  end.

Fixpoint span_of (name : string) (caps : captures) : option (nat * nat) :=
  match caps with
  | [] => None
  | (n, sp) :: caps' => if String.eqb n name then Some sp else span_of name caps'
  end.

(** [res.group(name)] = [subject[start:end]]; [None] for an unknown
    group. *)
Definition group (m : match_obj) (name : string) : option string :=
  match span_of name (spans m) with
  | Some (b, e) => Some (substring b (e - b) (subject m))
  | None => None
  end.

End Re.

(** ** Module constants *)

Definition _VERSION_TMPL (v : Re.regex) : Re.regex :=
  Re.Seq Re.Bol
    (Re.Seq (Re.Group "major" v)
      (Re.Seq (Re.Lit ".")
        (Re.Seq (Re.Group "minor" v)
          (Re.Seq (Re.Lit ".")
            (Re.Seq (Re.Group "patch" v) Re.Eol))))).

Definition _VERSION_WILDCARD_REG : Re.regex :=
  _VERSION_TMPL (Re.Alt (Re.Plus Re.is_digit) (Re.Lit "*")).

Definition _VERSION_RESOLVED_REG : Re.regex :=
  _VERSION_TMPL (Re.Plus Re.is_digit).

(** ** Builtins: [int(v)] and the rendering of an [int] by [format] *)

(** [int(v)] on a string of decimal digits; any other string raises here
    (the builtin takes more, but a group of the template holds digits
    only, see [py_int_digits]). *)
Definition py_int (v : string) : result Z :=
  match NilZero.uint_of_string v with
  | Some d => OK (Z.of_uint d)
  | None =>
      Raise (ValueError ("invalid literal for int() with base 10: '" ++ v ++ "'"))
  end.

(** [str(n)] for an [int]: decimal, a minus sign when negative. *)
Definition str_of_int (n : Z) : string := NilZero.string_of_int (Z.to_int n).

(** ** The parser *)

(** A component of a parsed version: an [int], or the string ["*"]. *)
Inductive component :=
| CInt (n : Z)
| Wild.

Definition version_tuple : Type := component * component * component.

Definition convert (v : string) : result component :=
  if String.eqb v "*" then OK Wild else rbind (py_int v) (fun n => OK (CInt n)).

Definition invalid_version_msg (version_str : string) (allow_wildcard : bool) : string :=
  let msg := "Invalid version '" ++ version_str ++ "'. Format should be x.y.z" in
  if allow_wildcard
  then msg ++ " with {x,y,z} being digits or wildcard."
  else msg ++ " with {x,y,z} being digits.".

(** A group that took no part in the match is [None] in Python, and
    [int(None)] raises [TypeError]; the three groups of the template
    always take part (see [groups_of_match] and
    [_str_to_version_raises]). *)
Definition group_or_raise (m : Re.match_obj) (name : string) : result string :=
  match Re.group m name with
  | Some v => OK v
  | None => Raise (TypeError ("int() argument must be a string, not 'NoneType': " ++ name))
  end.

Definition _str_to_version (version_str : string) (allow_wildcard : bool)
    : result version_tuple :=
  let reg := if allow_wildcard then _VERSION_WILDCARD_REG else _VERSION_RESOLVED_REG in
  match Re.re_match reg version_str with
  | None => Raise (ValueError (invalid_version_msg version_str allow_wildcard))
  | Some res =>
      rbind (group_or_raise res "major") (fun v1 =>
      rbind (group_or_raise res "minor") (fun v2 =>
      rbind (group_or_raise res "patch") (fun v3 =>
      rbind (convert v1) (fun major =>
      rbind (convert v2) (fun minor =>
      rbind (convert v3) (fun patch =>
      OK (major, minor, patch)))))))
  end.

Definition nl : string := String Re.newline "".

(** ** Tuples of components: [==], [<] and [in] *)

(** [a == b]: an [int] never equals the string ["*"]. *)
Definition component_eqb (a b : component) : bool :=
  match a, b with
  | CInt x, CInt y => Z.eqb x y
  | Wild, Wild => true
  | _, _ => false
  end.

(** [a < b]: Python 3 refuses to order an [int] and a [str]. *)
Definition component_ltb (a b : component) : result bool :=
  match a, b with
  | CInt x, CInt y => OK (Z.ltb x y)
  | Wild, Wild => OK false
  | CInt _, Wild =>
      Raise (TypeError "'<' not supported between instances of 'int' and 'str'")
  | Wild, CInt _ =>
      Raise (TypeError "'<' not supported between instances of 'str' and 'int'")
  end.

Definition tuple_eqb (a b : version_tuple) : bool :=
  let '(a1, a2, a3) := a in
  let '(b1, b2, b3) := b in
  component_eqb a1 b1 && component_eqb a2 b2 && component_eqb a3 b3.

(** The first position where the tuples differ decides; equal tuples are
    not smaller. *)
Definition tuple_ltb (a b : version_tuple) : result bool :=
  let '(a1, a2, a3) := a in
  let '(b1, b2, b3) := b in
  if negb (component_eqb a1 b1) then component_ltb a1 b1
  else if negb (component_eqb a2 b2) then component_ltb a2 b2
  else if negb (component_eqb a3 b3) then component_ltb a3 b3
  else OK false.

(** [x in l] *)
Definition py_in (x : component) (l : list component) : bool :=
  existsb (fun e => component_eqb e x) l.

Definition str_of_component (c : component) : string :=
  match c with
  | CInt n => str_of_int n
  | Wild => "*"
  end.

(** ["{}.{}.{}".format(a, b, c)] *)
Definition format_version (a b c : component) : string :=
  str_of_component a ++ "." ++ str_of_component b ++ "." ++ str_of_component c.

(** ** The heap and the monad of methods *)

#[global] Instance Feature_eq_dec : EqDecision Feature.
Proof. solve_decision. Defined.

#[global] Instance key_eq_dec : EqDecision key.
Proof. solve_decision. Defined.

Definition key_encode (k : key) : Z + string :=
  match k with
  | KFeature DUMMY => inl 0
  | KInt n => inl (if Z.leb 0 n then n + 1 else n)
  | KStr s => inr s
  end.

Definition key_decode (x : Z + string) : key :=
  match x with
  | inl 0 => KFeature DUMMY
  | inl n => KInt (if Z.leb 0 n then n - 1 else n)
  | inr s => KStr s
  end.

#[global] Program Instance key_countable : Countable key :=
  inj_countable' key_encode key_decode _.
Next Obligation.
  intros [[]|n|s]; simpl; try reflexivity.
  destruct (Z.leb 0 n) eqn:E.
  - apply Z.leb_le in E. destruct (n + 1) eqn:E1; try lia.
    rewrite <- E1. replace (0 <=? n + 1) with true by (symmetry; apply Z.leb_le; lia).
    f_equal. lia.
  - apply Z.leb_gt in E. destruct n; try lia. reflexivity.
Qed.

(** A reference is an index into the heap. *)
Definition ref : Type := nat.

(** An instance of [Version]: its four attributes. *)
Record instance := {
  _features : ref;        (* the instance's own dict *)
  major : component;
  minor : component;
  patch : component
}.

Record heap := {
  dicts : list (gmap key bool);
  objs : list instance
}.

(** [Version._DEFAULT_FEATURES] is the first dict of the heap. *)
Definition _DEFAULT_FEATURES : ref := 0%nat.

(** The heap once the module is imported. *)
Definition module_heap : heap :=
  {| dicts := [ {[ KFeature DUMMY := false ]} ]; objs := [] |}.

Definition LATEST : string := "latest".

Definition M (A : Type) : Type := heap -> result A * heap.

Definition ret {A} (a : A) : M A := fun h => (OK a, h).

Definition raise {A} (e : exn) : M A := fun h => (Raise e, h).

Definition bind {A B} (m : M A) (f : A -> M B) : M B :=
  fun h =>
    match m h with
    | (OK a, h') => f a h'
    | (Raise e, h') => (Raise e, h')
    end.

Definition lift {A} (r : result A) : M A := fun h => (r, h).

Notation "'let*' x ':=' m 'in' k" := (bind m (fun x => k))
  (at level 10, x name, m at level 100, k at level 200).

Definition get_dict (l : ref) : M (gmap key bool) :=
  fun h =>
    match dicts h !! l with
    | Some d => (OK d, h)
    | None => (Raise (SystemError "no such dict"), h)
    end.

Definition get_instance (l : ref) : M instance :=
  fun h =>
    match objs h !! l with
    | Some o => (OK o, h)
    | None => (Raise (SystemError "no such instance"), h)
    end.

Definition alloc_dict (d : gmap key bool) (h : heap) : heap :=
  {| dicts := dicts h ++ [d]; objs := objs h |}.

Definition alloc_obj (o : instance) (h : heap) : heap :=
  {| dicts := dicts h; objs := objs h ++ [o] |}.

(** [d.copy()]: a new dict with the entries of [d]. *)
Definition dict_copy (l : ref) : M ref :=
  let* d := get_dict l in
  fun h => (OK (length (dicts h)), alloc_dict d h).

(** [d.update(other)]: in place; the entries of [other] win. *)
Definition dict_update (l : ref) (other : gmap key bool) : M unit :=
  let* d := get_dict l in
  fun h => (OK tt, {| dicts := <[l := other ∪ d]> (dicts h); objs := objs h |}).

Definition new_instance (o : instance) : M ref :=
  fun h => (OK (length (objs h)), alloc_obj o h).

(** ** class Version *)

(** [Version(version_str, features)].  [features] is [None] or a dict the
    constructor only reads.  The instance enters the heap once [__init__]
    has set its four attributes: when [_str_to_version] raises, the
    half-built object is unreachable, its dict stays behind. *)
Definition Version (version_str : string) (features : option (gmap key bool)) : M ref :=
  let* d := dict_copy _DEFAULT_FEATURES in
  let* _ := match features with
             | Some f => if decide (f = ∅) then ret tt else dict_update d f
             | None => ret tt
             end in
  let* t := lift (_str_to_version version_str false) in
  let '(ma, mi, pa) := t in
  new_instance {| _features := d; major := ma; minor := mi; patch := pa |}.

Definition implements (self : ref) (feature : key) : M bool :=
  let* o := get_instance self in
  let* d := get_dict (_features o) in
  match d !! feature with
  | Some b => ret b
  | None => raise (KeyError feature)
  end.

Definition __str__ (self : ref) : M string :=
  let* o := get_instance self in
  ret (format_version (major o) (minor o) (patch o)).

Definition tuple (self : ref) : M version_tuple :=
  let* o := get_instance self in
  ret (major o, minor o, patch o).

(** A value that is neither a [str] nor a [Version], as [format] shows
    it: [str(other)] and [str(type(other))] (every such value is taken
    to have both). *)
Record pyobj := { py_str : string; py_type : string }.

Inductive operand :=
| OStr (s : string)
| OVersion (v : ref)
| OOther (o : pyobj).

Definition cannot_compare_msg (o : pyobj) : string :=
  py_str o ++ " (type " ++ py_type o ++ ") cannot be compared to version.".

Definition _validate_operand (self : ref) (other : operand) : M ref :=
  match other with
  | OStr s => Version s None
  | OVersion v => ret v
  | OOther o => raise (AssertionError (cannot_compare_msg o))
  end.

Definition __eq__ (self : ref) (other : operand) : M bool :=
  let* a := tuple self in
  let* o := _validate_operand self other in
  let* b := tuple o in
  ret (tuple_eqb a b).

Definition __lt__ (self : ref) (other : operand) : M bool :=
  let* a := tuple self in
  let* o := _validate_operand self other in
  let* b := tuple o in
  lift (tuple_ltb a b).

(** [object.__ne__]: the negation of [__eq__]. *)
Definition __ne__ (self : ref) (other : operand) : M bool :=
  let* r := __eq__ self other in
  ret (negb r).

(** What [functools.total_ordering] adds from [__lt__]:
    [not (a < b) and a != b], [a < b or a == b], [not (a < b)]. *)
Definition __gt__ (self : ref) (other : operand) : M bool :=
  let* op_result := __lt__ self other in
  if negb op_result then __ne__ self other else ret false.

Definition __le__ (self : ref) (other : operand) : M bool :=
  let* op_result := __lt__ self other in
  if op_result then ret true else __eq__ self other.

Definition __ge__ (self : ref) (other : operand) : M bool :=
  let* op_result := __lt__ self other in
  ret (negb op_result).

Definition match_ (self : ref) (other_version : string) : M bool :=
  let* t := lift (_str_to_version other_version true) in
  let '(ma, mi, pa) := t in
  let* o := get_instance self in
  if py_in ma [major o; Wild] then
    if py_in mi [minor o; Wild] then ret (py_in pa [patch o; Wild])
    else ret false
  else ret false.

(** The six comparison operators. *)
Inductive cmp_op := OpEq | OpNe | OpLt | OpLe | OpGt | OpGe.

Definition compare (op : cmp_op) : ref -> operand -> M bool :=
  match op with
  | OpEq => __eq__
  | OpNe => __ne__
  | OpLt => __lt__
  | OpLe => __le__
  | OpGt => __gt__
  | OpGe => __ge__
  end.

(** ** A direct description of what the two patterns accept

    These definitions are not taken from the source: they say, without
    a matcher, which strings the template accepts and how it cuts them.
    [re_match_split] proves that the matcher agrees. *)

(** The longest prefix in the class, and what follows it. *)
Fixpoint take_class (cls : ascii -> bool) (s : string) : string :=
  match s with
  | String c r => if cls c then String c (take_class cls r) else ""
  | EmptyString => ""
  end.

Fixpoint drop_class (cls : ascii -> bool) (s : string) : string :=
  match s with
  | String c r => if cls c then drop_class cls r else s
  | EmptyString => ""
  end.

Fixpoint all_digits (s : string) : bool :=
  match s with
  | String c r => Re.is_digit c && all_digits r
  | EmptyString => true
  end.

(** A non-empty string of digits. *)
Definition is_number (s : string) : bool :=
  match s with
  | EmptyString => false
  | _ => all_digits s
  end.

(** One component: a number, or ["*"] when wildcards are allowed. *)
Definition is_component (wild : bool) (s : string) : bool :=
  is_number s || (wild && String.eqb s "*").

(** Where [$] holds. *)
Definition at_end (s : string) : bool :=
  match s with
  | EmptyString => true
  | String c EmptyString => Ascii.eqb c Re.newline
  | _ => false
  end.

(** The component at the head of [rest], and what follows it. *)
Definition scan (wild : bool) (rest : string) : option (string * string) :=
  match rest with
  | String c r =>
      if Re.is_digit c
      then Some (String c (take_class Re.is_digit r), drop_class Re.is_digit r)
      else if wild && Ascii.eqb "*" c then Some ("*", r) else None
  | EmptyString => None
  end.

Definition expect_dot (rest : string) : option string :=
  match rest with
  | String c r => if Ascii.eqb "." c then Some r else None
  | EmptyString => None
  end.

Definition split_version (wild : bool) (s : string) : option (string * string * string) :=
  match scan wild s with
  | None => None
  | Some (a, r1) =>
      match expect_dot r1 with
      | None => None
      | Some r1' =>
          match scan wild r1' with
          | None => None
          | Some (b, r2) =>
              match expect_dot r2 with
              | None => None
              | Some r2' =>
                  match scan wild r2' with
                  | None => None
                  | Some (c, r3) => if at_end r3 then Some (a, b, c) else None
                  end
              end
          end
      end
  end.

(** A continuation that cannot go on from a character of the class. *)
Definition stops_at (cls : ascii -> bool) (k : Re.cont) : Prop :=
  forall pos c r caps, cls c = true -> k pos (String c r) caps = None.

(** The component of the two patterns. *)
Definition component_re (wild : bool) : Re.regex :=
  if wild then Re.Alt (Re.Plus Re.is_digit) (Re.Lit "*") else Re.Plus Re.is_digit.

(** The spans of the three groups of a match cut as [a.b.c]. *)
Definition version_spans (a b c : string) : Re.captures :=
  let p1 := S (String.length a) in
  let p2 := S (p1 + String.length b) in
  [("patch", (p2, p2 + String.length c)%nat);
   ("minor", (p1, p1 + String.length b)%nat);
   ("major", (0, String.length a)%nat)].

(** The conversion of the three groups. *)
Definition convert3 (a b c : string) : result version_tuple :=
  rbind (convert a) (fun x =>
  rbind (convert b) (fun y =>
  rbind (convert c) (fun z => OK (x, y, z)))).

(** The relation between the text of a component and its value. *)
Definition component_of (wild : bool) (a : string) (x : component) : Prop :=
  (is_number a = true /\ exists n, py_int a = OK n /\ 0 <= n /\ x = CInt n)
  \/ (wild = true /\ a = "*" /\ x = Wild).

(** The grammar of the description: [comp.comp.comp], nothing before and
    nothing after. *)
Definition version_grammar (wild : bool) (s : string) : Prop :=
  exists a b c,
    s = a ++ "." ++ b ++ "." ++ c /\
    is_component wild a = true /\ is_component wild b = true /\
    is_component wild c = true.

(** ** Vocabulary of the statements *)

(** The entries an instance starts with: the defaults, overridden by the
    [features] argument. *)
Definition own_features (dflt : gmap key bool) (features : option (gmap key bool))
    : gmap key bool :=
  match features with
  | Some f => f ∪ dflt
  | None => dflt
  end.

(** Every object of [h] is in [h'], at the same place and unchanged. *)
Definition heap_extends (h h' : heap) : Prop :=
  dicts h `prefix_of` dicts h' /\ objs h `prefix_of` objs h'.

#[local] Instance heap_extends_refl : Reflexive heap_extends.
Proof. intros h. split; reflexivity. Qed.

#[local] Instance heap_extends_trans : Transitive heap_extends.
Proof. intros h1 h2 h3 [? ?] [? ?]. split; etransitivity; eassumption. Qed.

(** A computation that only allocates. *)
Definition allocates {A} (m : M A) : Prop :=
  forall h, heap_extends h (snd (m h)).

(** The comparison operators on two tuples. *)
Definition cmp_tuples (op : cmp_op) (a b : version_tuple) : result bool :=
  match op with
  | OpEq => OK (tuple_eqb a b)
  | OpNe => OK (negb (tuple_eqb a b))
  | OpLt => tuple_ltb a b
  | OpLe => rbind (tuple_ltb a b) (fun r => OK (r || tuple_eqb a b))
  | OpGt => rbind (tuple_ltb a b) (fun r => OK (negb r && negb (tuple_eqb a b)))
  | OpGe => rbind (tuple_ltb a b) (fun r => OK (negb r))
  end.

Definition tuple_of (o : instance) : version_tuple := (major o, minor o, patch o).

(** The lexicographic order on triples of integers, in the words of the
    description: major first; on a tie minor; on a tie patch. *)
Definition lex_lt (a b : Z * Z * Z) : Prop :=
  let '(a1, a2, a3) := a in
  let '(b1, b2, b3) := b in
  a1 < b1 \/ (a1 = b1 /\ (a2 < b2 \/ (a2 = b2 /\ a3 < b3))).

Definition ints (t : Z * Z * Z) : version_tuple :=
  let '(a, b, c) := t in (CInt a, CInt b, CInt c).

(** The operations on an instance. *)
Inductive operation :=
| DoImplements (feature : key)
| DoStr
| DoTuple
| DoCompare (op : cmp_op) (other : operand)
| DoMatch (other_version : string).

(** The heap after an operation, whatever it returned or raised. *)
Definition perform (self : ref) (o : operation) (h : heap) : heap :=
  match o with
  | DoImplements f => snd (implements self f h)
  | DoStr => snd (__str__ self h)
  | DoTuple => snd (tuple self h)
  | DoCompare op other => snd (compare op self other h)
  | DoMatch s => snd (match_ self s h)
  end.

Fixpoint perform_all (calls : list (ref * operation)) (h : heap) : heap :=
  match calls with
  | [] => h
  | (self, o) :: calls' => perform_all calls' (perform self o h)
  end.

(** Two heaps for the examples: after [Version("1.2.3")], and after
    [Version("1.10.0")] next. *)
Definition sample_heap1 : heap := snd (Version "1.2.3" None module_heap).
Definition sample_heap2 : heap := snd (Version "1.10.0" None sample_heap1).

(** [version_grammar], decided. *)
Definition version_grammarb (wild : bool) (s : string) : bool :=
  match split_version wild s with
  | Some (a, b, c) => String.eqb s (a ++ "." ++ b ++ "." ++ c)
  | None => false
  end.

(** The [int] 5, as [format] shows it and its type. *)
Definition five : pyobj := {| py_str := "5"; py_type := "<class 'int'>" |}.

(** The entry of the [features] argument for [f], if any. *)
Definition feature_arg (features : option (gmap key bool)) (f : key) : option bool :=
  match features with
  | Some fs => fs !! f
  | None => None
  end.

(** What a lookup in a dict returns or raises. *)
Definition dict_get (d : gmap key bool) (f : key) : result bool :=
  match d !! f with
  | Some b => OK b
  | None => Raise (KeyError f)
  end.

(** A tuple without wildcard. *)
Definition no_wild (t : version_tuple) : bool :=
  match t with
  | (CInt _, CInt _, CInt _) => true
  | _ => false
  end.

(** What a program does with the class: it constructs, or it calls a
    method of an instance. *)
Inductive action :=
| Construct (version_str : string) (features : option (gmap key bool))
| Call (self : ref) (o : operation).

Definition act (a : action) (h : heap) : heap :=
  match a with
  | Construct s features => snd (Version s features h)
  | Call self o => perform self o h
  end.

Fixpoint run_actions (acts : list action) (h : heap) : heap :=
  match acts with
  | [] => h
  | a :: acts' => run_actions acts' (act a h)
  end.

(** A third version for the examples. *)
Definition sample_heap3 : heap := snd (Version "2.0.0" None sample_heap2).

(** A computation that leaves the heap as it is. *)
Definition reads_only {A} (m : M A) : Prop :=
  forall h, snd (m h) = h.

(** * Properties *)

Example parse_123 : _str_to_version "1.2.3" false = OK (CInt 1, CInt 2, CInt 3).
Proof. reflexivity. Qed.

Example parse_wild : _str_to_version "10.*.03" true = OK (CInt 10, Wild, CInt 3).
Proof. reflexivity. Qed.

Example parse_newline : _str_to_version ("1.2.3" ++ nl) false = OK (CInt 1, CInt 2, CInt 3).
Proof. reflexivity. Qed.

Example parse_short : _str_to_version "1.2" false
  = Raise (ValueError "Invalid version '1.2'. Format should be x.y.z with {x,y,z} being digits.").
Proof. reflexivity. Qed.

Example ctor_str :
  fst ((let* v := Version "1.2.3" None in __str__ v) module_heap) = OK "1.2.3".
Proof. vm_compute. reflexivity. Qed.

Example ctor_feat :
  fst ((let* v := Version "1.2.3" (Some {[ KFeature DUMMY := true ]}) in implements v (KFeature DUMMY)) module_heap) = OK true.
Proof. vm_compute. reflexivity. Qed.

Example ctor_gt :
  fst ((let* v := Version "1.0.1" None in __gt__ v (OStr "1.0.0")) module_heap) = OK true.
Proof. vm_compute. reflexivity. Qed.

(** ** Strings *)

Lemma append_nil_r (s : string) : s ++ "" = s.
Proof. induction s; simpl; congruence. Qed.

Lemma append_assoc (a b c : string) : (a ++ b) ++ c = a ++ b ++ c.
Proof. induction a; simpl; congruence. Qed.

Lemma length_append (a b : string) :
  String.length (a ++ b) = (String.length a + String.length b)%nat.
Proof. induction a; simpl; congruence. Qed.

Lemma substring_prefix (a r : string) : substring 0 (String.length a) (a ++ r) = a.
Proof.
  induction a as [|c a IH]; simpl.
  - destruct r; reflexivity.
  - now rewrite IH.
Qed.

Lemma substring_skip (a r : string) (n m : nat) :
  substring (String.length a + n) m (a ++ r) = substring n m r.
Proof. induction a as [|c a IH]; simpl; auto. Qed.

Lemma take_drop_class cls (s : string) : take_class cls s ++ drop_class cls s = s.
Proof.
  induction s as [|c r IH]; simpl; [reflexivity|].
  destruct (cls c); simpl; congruence.
Qed.

Lemma take_class_digits (s : string) : all_digits (take_class Re.is_digit s) = true.
Proof.
  induction s as [|c r IH]; simpl; [reflexivity|].
  destruct (Re.is_digit c) eqn:E; simpl; [rewrite E|]; auto.
Qed.

Lemma drop_class_head cls (s : string) c r :
  drop_class cls s = String c r -> cls c = false.
Proof.
  induction s as [|c' r' IH]; simpl; [discriminate|].
  destruct (cls c') eqn:E; auto. intros [= -> ->]. exact E.
Qed.

(** A run of digits followed by something that is no digit is cut where
    the digits end. *)
Lemma take_class_app (a r : string) :
  all_digits a = true ->
  (forall c r', r = String c r' -> Re.is_digit c = false) ->
  take_class Re.is_digit (a ++ r) = a /\ drop_class Re.is_digit (a ++ r) = r.
Proof.
  intros Ha Hr. induction a as [|c a IH]; simpl in *.
  - destruct r as [|c r']; simpl; [auto|]. now rewrite (Hr c r' eq_refl).
  - apply andb_true_iff in Ha as [Hc Ha]. rewrite Hc.
    destruct (IH Ha) as [-> ->]. auto.
Qed.

(** ** The matcher agrees with the direct description *)

Section Matcher.
Import Re.

Lemma greedy_longest cls k : stops_at cls k ->
  forall rest pos caps,
    greedy cls pos rest caps k
    = k (pos + String.length (take_class cls rest))%nat (drop_class cls rest) caps.
Proof.
  intros Hk. induction rest as [|c r IH]; intros pos caps; simpl.
  - now rewrite Nat.add_0_r.
  - destruct (cls c) eqn:E; simpl.
    + rewrite IH. replace (S pos + _)%nat
        with (pos + S (String.length (take_class cls r)))%nat by lia.
      destruct (k _ _ _) eqn:Ek; [reflexivity|].
      now rewrite Hk.
    + now rewrite Nat.add_0_r.
Qed.

Lemma digit_not_star c : is_digit c = true -> Ascii.eqb "*" c = false.
Proof.
  intros E. destruct c as [[] [] [] [] [] [] [] []]; try discriminate E; reflexivity.
Qed.

Lemma digit_not_dot c : is_digit c = true -> Ascii.eqb "." c = false.
Proof.
  intros E. destruct c as [[] [] [] [] [] [] [] []]; try discriminate E; reflexivity.
Qed.

Lemma digit_not_newline c : is_digit c = true -> Ascii.eqb c newline = false.
Proof.
  intros E. destruct c as [[] [] [] [] [] [] [] []]; try discriminate E; reflexivity.
Qed.

Lemma run_component wild k : stops_at is_digit k ->
  forall rest pos caps,
    run (component_re wild) pos rest caps k
    = match scan wild rest with
      | Some (a, r) => k (pos + String.length a)%nat r caps
      | None => None
      end.
Proof.
  intros Hk rest pos caps.
  assert (Hplus : run (Plus is_digit) pos rest caps k
    = match scan false rest with
      | Some (a, r) => k (pos + String.length a)%nat r caps
      | None => None
      end).
  { destruct rest as [|c r]; simpl; [reflexivity|].
    destruct (is_digit c); [|reflexivity].
    rewrite greedy_longest by assumption. f_equal. cbn [String.length]. lia. }
  destruct wild; [|exact Hplus].
  change (run (component_re true) pos rest caps k)
    with (match run (Plus is_digit) pos rest caps k with
          | Some m => Some m
          | None => run (Lit "*") pos rest caps k
          end).
  rewrite Hplus. destruct rest as [|c r]; [reflexivity|].
  unfold scan. cbn [run andb]. destruct (is_digit c) eqn:E.
  - rewrite (digit_not_star c E). now destruct (k _ _ _).
  - destruct (Ascii.eqb "*" c); [|reflexivity].
    cbn [String.length]. f_equal. lia.
Qed.

Theorem re_match_split wild s :
  re_match (_VERSION_TMPL (component_re wild)) s
  = match split_version wild s with
    | Some (a, b, c) => Some {| subject := s; spans := version_spans a b c |}
    | None => None
    end.
Proof.
  unfold re_match, _VERSION_TMPL, split_version.
  set (v := component_re wild). cbn [run Nat.eqb]. subst v.
  rewrite run_component
    by (intros pos c r caps E; cbv beta; now rewrite (digit_not_dot c E)).
  destruct (scan wild s) as [[a r1]|]; [|reflexivity].
  destruct r1 as [|c1 r1]; [reflexivity|]. cbn [expect_dot].
  destruct (Ascii.eqb "." c1); [|reflexivity].
  rewrite run_component
    by (intros pos c r caps E; cbv beta; now rewrite (digit_not_dot c E)).
  destruct (scan wild r1) as [[b r2]|]; [|reflexivity].
  destruct r2 as [|c2 r2]; [reflexivity|]. cbn [expect_dot].
  destruct (Ascii.eqb "." c2); [|reflexivity].
  rewrite run_component.
  - destruct (scan wild r2) as [[c r3]|]; [|reflexivity].
    destruct r3 as [|c3 [|c4 r3]]; cbn [at_end]; try reflexivity.
    destruct (Ascii.eqb c3 newline); reflexivity.
  - intros pos c [|c' r] caps E; cbv beta; [|reflexivity].
    now rewrite (digit_not_newline c E).
Qed.

End Matcher.

(** ** What [split_version] accepts *)

Lemma is_component_cases wild (a : string) :
  is_component wild a = true <->
  is_number a = true \/ (wild = true /\ a = "*").
Proof.
  unfold is_component. rewrite orb_true_iff, andb_true_iff, String.eqb_eq.
  reflexivity.
Qed.

Lemma scan_sound wild rest a r :
  scan wild rest = Some (a, r) ->
  rest = a ++ r /\ is_component wild a = true.
Proof.
  destruct rest as [|c rest]; [discriminate|]. cbn [scan].
  destruct (Re.is_digit c) eqn:E.
  - intros [= <- <-]. split.
    + simpl. now rewrite take_drop_class.
    + apply is_component_cases. left. simpl. now rewrite E, take_class_digits.
  - destruct wild; [|discriminate]. cbn [andb].
    destruct (Ascii.eqb_spec "*" c) as [<-|]; [|discriminate].
    intros [= <- <-]. split; reflexivity.
Qed.

Lemma scan_complete wild (a r : string) :
  is_component wild a = true ->
  (forall c r', r = String c r' -> Re.is_digit c = false) ->
  scan wild (a ++ r) = Some (a, r).
Proof.
  intros Ha Hr. apply is_component_cases in Ha as [Ha|[-> ->]]; [|reflexivity].
  destruct a as [|c a]; [discriminate|]. simpl in Ha.
  apply andb_true_iff in Ha as [Hc Ha]. simpl. rewrite Hc.
  now destruct (take_class_app a r Ha Hr) as [-> ->].
Qed.

Lemma expect_dot_sound rest r : expect_dot rest = Some r -> rest = "." ++ r.
Proof.
  destruct rest as [|c rest]; [discriminate|]. cbn [expect_dot].
  destruct (Ascii.eqb_spec "." c) as [<-|]; [|discriminate]. now intros [= ->].
Qed.

Lemma at_end_cases (t : string) : at_end t = true <-> t = "" \/ t = nl.
Proof.
  destruct t as [|c [|c' t]]; cbn [at_end].
  - split; auto.
  - split.
    + intros H. apply Ascii.eqb_eq in H. subst c. now right.
    + intros [H|H]; [discriminate|]. injection H as ->. reflexivity.
  - split; [discriminate|]. intros [H|H]; discriminate.
Qed.

Lemma at_end_no_digit (t : string) c r :
  at_end t = true -> t = String c r -> Re.is_digit c = false.
Proof.
  intros Ht ->. destruct r; [|discriminate]. cbn [at_end] in Ht.
  apply Ascii.eqb_eq in Ht as ->. reflexivity.
Qed.

Theorem split_version_sound wild s a b c :
  split_version wild s = Some (a, b, c) ->
  exists tail,
    s = a ++ "." ++ b ++ "." ++ c ++ tail /\ at_end tail = true /\
    is_component wild a = true /\ is_component wild b = true /\
    is_component wild c = true.
Proof.
  unfold split_version.
  destruct (scan wild s) as [[a' r1]|] eqn:E1; [|discriminate].
  destruct (expect_dot r1) as [r1'|] eqn:D1; [|discriminate].
  destruct (scan wild r1') as [[b' r2]|] eqn:E2; [|discriminate].
  destruct (expect_dot r2) as [r2'|] eqn:D2; [|discriminate].
  destruct (scan wild r2') as [[c' r3]|] eqn:E3; [|discriminate].
  destruct (at_end r3) eqn:Hend; [|discriminate].
  intros [= <- <- <-].
  apply scan_sound in E1 as [-> Ha], E2 as [-> Hb], E3 as [-> Hc].
  apply expect_dot_sound in D1 as ->, D2 as ->.
  exists r3. auto.
Qed.

Theorem split_version_complete wild (a b c tail : string) :
  is_component wild a = true -> is_component wild b = true ->
  is_component wild c = true -> at_end tail = true ->
  split_version wild (a ++ "." ++ b ++ "." ++ c ++ tail) = Some (a, b, c).
Proof.
  intros Ha Hb Hc Ht. unfold split_version.
  rewrite (scan_complete wild a) by (assumption || now intros ? ? [= <- _]).
  cbn [append expect_dot Ascii.eqb Bool.eqb].
  rewrite (scan_complete wild b) by (assumption || now intros ? ? [= <- _]).
  cbn [append expect_dot Ascii.eqb Bool.eqb].
  rewrite (scan_complete wild c)
    by (assumption || (intros; eapply at_end_no_digit; eassumption)).
  now rewrite Ht.
Qed.

(** The three groups of a match are the three components. *)
Lemma groups_of_match (a b c tail : string) :
  let m := {| Re.subject := a ++ "." ++ b ++ "." ++ c ++ tail;
              Re.spans := version_spans a b c |} in
  Re.group m "major" = Some a /\ Re.group m "minor" = Some b /\
  Re.group m "patch" = Some c.
Proof.
  unfold Re.group, version_spans. cbn [Re.spans Re.subject Re.span_of String.eqb Ascii.eqb Bool.eqb].
  repeat split; f_equal.
  - rewrite Nat.sub_0_r. apply substring_prefix.
  - replace (S (String.length a)) with (String.length (a ++ ".") + 0)%nat
      by (rewrite length_append; simpl; lia).
    replace (_ + _ - _)%nat with (String.length b) by lia.
    rewrite <- (append_assoc a "."), substring_skip. apply substring_prefix.
  - replace (S (S (String.length a) + String.length b))
      with (String.length (a ++ "." ++ b ++ ".") + 0)%nat
      by (rewrite !length_append; simpl; lia).
    replace (_ + _ - _)%nat with (String.length c) by lia.
    replace (a ++ "." ++ b ++ "." ++ c ++ tail)
      with ((a ++ "." ++ b ++ ".") ++ c ++ tail)
      by (now rewrite !append_assoc).
    rewrite substring_skip. apply substring_prefix.
Qed.

(** ** [int] and [str] on decimal numerals *)

Lemma uint_of_digits (a : string) :
  all_digits a = true -> exists d, NilEmpty.uint_of_string a = Some d.
Proof.
  induction a as [|c a IH]; simpl; [eauto|].
  intros H. apply andb_true_iff in H as [Hc Ha].
  destruct (IH Ha) as [d ->].
  destruct c as [[] [] [] [] [] [] [] []]; try discriminate Hc; simpl; eauto.
Qed.

(** [int] never raises on what [\d+] captures, and gives no negative
    number. *)
Lemma py_int_digits (a : string) :
  is_number a = true -> exists n, py_int a = OK n /\ 0 <= n.
Proof.
  intros H. destruct a as [|c a]; [discriminate|].
  destruct (uint_of_digits _ H) as [d Hd].
  exists (Z.of_uint d). unfold py_int, NilZero.uint_of_string. rewrite Hd.
  split; [reflexivity|]. unfold Z.of_uint. lia.
Qed.

Lemma number_not_star (a : string) : is_number a = true -> String.eqb a "*" = false.
Proof.
  intros H. apply String.eqb_neq. intros ->. discriminate H.
Qed.

Lemma convert_number (a : string) :
  is_number a = true ->
  exists n, py_int a = OK n /\ convert a = OK (CInt n) /\ 0 <= n.
Proof.
  intros H. destruct (py_int_digits a H) as (n & Hn & Hpos).
  exists n. unfold convert. rewrite (number_not_star a H), Hn. auto.
Qed.

Lemma string_of_uint_digits d : all_digits (NilEmpty.string_of_uint d) = true.
Proof. induction d; simpl; auto. Qed.

Lemma string_of_uint_number d : is_number (NilZero.string_of_uint d) = true.
Proof.
  destruct d; try reflexivity; simpl; apply string_of_uint_digits.
Qed.

Lemma str_of_int_number (n : Z) : 0 <= n -> is_number (str_of_int n) = true.
Proof.
  intros H. unfold str_of_int. destruct n as [|p|p]; [reflexivity| |lia].
  apply string_of_uint_number.
Qed.

(** [int(str(n)) == n] *)
Lemma py_int_str_of_int (n : Z) : 0 <= n -> py_int (str_of_int n) = OK n.
Proof.
  intros H. unfold str_of_int, py_int. destruct n as [|p|p]; [reflexivity| |lia].
  cbn [Z.to_int NilZero.string_of_int].
  rewrite NilZero.usu by apply DecimalPos.Unsigned.to_uint_nonnil.
  unfold Z.of_uint. now rewrite DecimalPos.Unsigned.of_to.
Qed.

(** ** The parser, without the matcher *)

Theorem _str_to_version_split (s : string) (wild : bool) :
  _str_to_version s wild
  = match split_version wild s with
    | Some (a, b, c) => convert3 a b c
    | None => Raise (ValueError (invalid_version_msg s wild))
    end.
Proof.
  unfold _str_to_version.
  replace (if wild then _VERSION_WILDCARD_REG else _VERSION_RESOLVED_REG)
    with (_VERSION_TMPL (component_re wild)) by (now destruct wild).
  rewrite re_match_split.
  destruct (split_version wild s) as [[[a b] c]|] eqn:E; [|reflexivity].
  destruct (split_version_sound _ _ _ _ _ E) as (tail & -> & _).
  destruct (groups_of_match a b c tail) as (G1 & G2 & G3).
  unfold group_or_raise. rewrite G1, G2, G3. reflexivity.
Qed.

Lemma convert_component wild (a : string) :
  is_component wild a = true ->
  exists x, convert a = OK x /\ component_of wild a x.
Proof.
  intros H. apply is_component_cases in H as [H|[-> ->]].
  - destruct (convert_number a H) as (n & Hn & Hc & Hpos).
    exists (CInt n). split; [assumption|]. left. eauto.
  - exists Wild. split; [reflexivity|]. right. auto.
Qed.

(** The parser returns a tuple exactly on the strings
    [a.b.c] and [a.b.c\n] with [a], [b], [c] components, and raises the
    [ValueError] of the source on every other string. *)
Theorem _str_to_version_ok (s : string) (wild : bool) (t : version_tuple) :
  _str_to_version s wild = OK t <->
  exists a b c tail x y z,
    s = a ++ "." ++ b ++ "." ++ c ++ tail /\ (tail = "" \/ tail = nl) /\
    component_of wild a x /\ component_of wild b y /\ component_of wild c z /\
    t = (x, y, z).
Proof.
  rewrite _str_to_version_split. split.
  - destruct (split_version wild s) as [[[a b] c]|] eqn:E; [|discriminate].
    destruct (split_version_sound _ _ _ _ _ E) as (tail & -> & Ht & Ha & Hb & Hc).
    destruct (convert_component _ _ Ha) as (x & Hx & Cx).
    destruct (convert_component _ _ Hb) as (y & Hy & Cy).
    destruct (convert_component _ _ Hc) as (z & Hz & Cz).
    unfold convert3. rewrite Hx, Hy, Hz. cbn [rbind]. intros [= <-].
    exists a, b, c, tail, x, y, z. apply at_end_cases in Ht. auto 10.
  - intros (a & b & c & tail & x & y & z & -> & Ht & Cx & Cy & Cz & ->).
    assert (Hcomp : forall a x, component_of wild a x ->
              is_component wild a = true /\ convert a = OK x).
    { intros a0 x0 [(Hn & n & Hi & _ & ->)|(-> & -> & ->)].
      - split; [apply is_component_cases; auto|].
        unfold convert. now rewrite (number_not_star _ Hn), Hi.
      - split; reflexivity. }
    destruct (Hcomp _ _ Cx) as [Ha Hx], (Hcomp _ _ Cy) as [Hb Hy],
      (Hcomp _ _ Cz) as [Hc Hz].
    rewrite split_version_complete by (auto; now apply at_end_cases).
    unfold convert3. now rewrite Hx, Hy, Hz.
Qed.

Theorem _str_to_version_raises (s : string) (wild : bool) (e : exn) :
  _str_to_version s wild = Raise e -> e = ValueError (invalid_version_msg s wild).
Proof.
  rewrite _str_to_version_split.
  destruct (split_version wild s) as [[[a b] c]|] eqn:E; [|now intros [= <-]].
  destruct (split_version_sound _ _ _ _ _ E) as (tail & -> & Ht & Ha & Hb & Hc).
  destruct (convert_component _ _ Ha) as (x & Hx & _).
  destruct (convert_component _ _ Hb) as (y & Hy & _).
  destruct (convert_component _ _ Hc) as (z & Hz & _).
  unfold convert3. rewrite Hx, Hy, Hz. discriminate.
Qed.

(** ** The heap *)

Lemma heap_extends_alloc_dict d h : heap_extends h (alloc_dict d h).
Proof. split; simpl; [apply prefix_app_r|]; reflexivity. Qed.

Lemma heap_extends_alloc_obj o h : heap_extends h (alloc_obj o h).
Proof. split; simpl; [|apply prefix_app_r]; reflexivity. Qed.

Lemma heap_extends_obj h h' v o :
  heap_extends h h' -> objs h !! v = Some o -> objs h' !! v = Some o.
Proof. intros [_ H] Hv. eapply prefix_lookup_Some; eassumption. Qed.

Lemma heap_extends_dict h h' l d :
  heap_extends h h' -> dicts h !! l = Some d -> dicts h' !! l = Some d.
Proof. intros [H _] Hl. eapply prefix_lookup_Some; eassumption. Qed.

Lemma allocates_ret {A} (a : A) : allocates (ret a).
Proof. intros h. reflexivity. Qed.

Lemma allocates_raise {A} e : allocates (@raise A e).
Proof. intros h. reflexivity. Qed.

Lemma allocates_lift {A} (r : result A) : allocates (lift r).
Proof. intros h. reflexivity. Qed.

Lemma allocates_bind {A B} (m : M A) (f : A -> M B) :
  allocates m -> (forall a, allocates (f a)) -> allocates (bind m f).
Proof.
  intros Hm Hf h. unfold bind. specialize (Hm h).
  destruct (m h) as [[a|e] h1]; simpl in *; [|assumption].
  etransitivity; [eassumption|apply Hf].
Qed.

Lemma allocates_get_dict l : allocates (get_dict l).
Proof. intros h. unfold get_dict. destruct (dicts h !! l); reflexivity. Qed.

Lemma allocates_get_instance l : allocates (get_instance l).
Proof. intros h. unfold get_instance. destruct (objs h !! l); reflexivity. Qed.

(** ** The constructor *)

Lemma dict_copy_run (h : heap) l d :
  dicts h !! l = Some d -> dict_copy l h = (OK (length (dicts h)), alloc_dict d h).
Proof. intros Hd. unfold dict_copy, bind, get_dict. now rewrite Hd. Qed.

(** Updating the copy that was just made. *)
Lemma update_copy (h : heap) (dflt : gmap key bool) features :
  match features with
  | Some f => if decide (f = ∅) then ret tt else dict_update (length (dicts h)) f
  | None => ret tt
  end (alloc_dict dflt h)
  = (OK tt, alloc_dict (own_features dflt features) h).
Proof.
  destruct features as [f|]; [|reflexivity]. cbn [own_features].
  destruct (decide (f = ∅)) as [->|_].
  - now rewrite (left_id_L ∅ (∪)).
  - unfold dict_update, bind, get_dict, alloc_dict, ret. cbn [dicts objs].
    rewrite list_lookup_middle by reflexivity. f_equal. f_equal.
    simpl. rewrite insert_app_r_alt by reflexivity.
    now rewrite Nat.sub_diag.
Qed.

(** What [Version] does on a heap that holds the class attribute. *)
Lemma Version_run (h : heap) (dflt : gmap key bool) s features :
  dicts h !! _DEFAULT_FEATURES = Some dflt ->
  Version s features h
  = let h1 := alloc_dict (own_features dflt features) h in
    match _str_to_version s false with
    | OK (ma, mi, pa) =>
        (OK (length (objs h)),
         alloc_obj {| _features := length (dicts h);
                      major := ma; minor := mi; patch := pa |} h1)
    | Raise e => (Raise e, h1)
    end.
Proof.
  intros Hd. unfold Version, bind.
  rewrite (dict_copy_run h _ dflt Hd), update_copy.
  unfold lift, new_instance.
  destruct (_str_to_version s false) as [[[ma mi] pa]|e]; reflexivity.
Qed.

Lemma Version_no_class_attribute (h : heap) s features :
  dicts h !! _DEFAULT_FEATURES = None ->
  Version s features h = (Raise (SystemError "no such dict"), h).
Proof.
  intros Hd. unfold Version, dict_copy, bind, get_dict. now rewrite Hd.
Qed.

Lemma allocates_Version s features : allocates (Version s features).
Proof.
  intros h. destruct (dicts h !! _DEFAULT_FEATURES) as [dflt|] eqn:Hd.
  - rewrite (Version_run h dflt) by assumption. cbv zeta.
    destruct (_str_to_version s false) as [[[ma mi] pa]|e]; simpl.
    + etransitivity; [apply heap_extends_alloc_dict|apply heap_extends_alloc_obj].
    + apply heap_extends_alloc_dict.
  - rewrite Version_no_class_attribute by assumption. reflexivity.
Qed.

(** The components that the constructor stores are non-negative
    integers. *)
Lemma resolved_tuple (s : string) (t : version_tuple) :
  _str_to_version s false = OK t ->
  exists a b c, t = ints (a, b, c) /\ 0 <= a /\ 0 <= b /\ 0 <= c.
Proof.
  intros H. apply _str_to_version_ok in H
    as (a & b & c & tail & x & y & z & _ & _ & Cx & Cy & Cz & ->).
  assert (Hint : forall a x, component_of false a x -> exists n, x = CInt n /\ 0 <= n).
  { intros a0 x0 [(_ & n & _ & Hn & ->)|(Hw & _)]; [eauto|discriminate]. }
  destruct (Hint _ _ Cx) as (n1 & -> & ?), (Hint _ _ Cy) as (n2 & -> & ?),
    (Hint _ _ Cz) as (n3 & -> & ?).
  exists n1, n2, n3. auto.
Qed.

(** A successful construction, read backwards. *)
Lemma Version_inv (h h' : heap) s features (v : ref) :
  Version s features h = (OK v, h') ->
  exists dflt a b c,
    dicts h !! _DEFAULT_FEATURES = Some dflt /\
    _str_to_version s false = OK (ints (a, b, c)) /\
    0 <= a /\ 0 <= b /\ 0 <= c /\
    v = length (objs h) /\
    h' = alloc_obj {| _features := length (dicts h);
                      major := CInt a; minor := CInt b; patch := CInt c |}
           (alloc_dict (own_features dflt features) h).
Proof.
  intros H. destruct (dicts h !! _DEFAULT_FEATURES) as [dflt|] eqn:Hd.
  - rewrite (Version_run h dflt) in H by assumption. cbv zeta in H.
    destruct (_str_to_version s false) as [t|e] eqn:E; [|discriminate].
    destruct (resolved_tuple _ _ E) as (a & b & c & -> & Ha & Hb & Hc).
    cbn [ints] in H. injection H as <- <-.
    exists dflt, a, b, c. auto 10.
  - rewrite Version_no_class_attribute in H by assumption. discriminate.
Qed.

Lemma Version_obj (h h' : heap) s features (v : ref) :
  Version s features h = (OK v, h') ->
  exists dflt a b c,
    dicts h !! _DEFAULT_FEATURES = Some dflt /\
    _str_to_version s false = OK (ints (a, b, c)) /\
    0 <= a /\ 0 <= b /\ 0 <= c /\
    objs h' !! v
    = Some {| _features := length (dicts h);
              major := CInt a; minor := CInt b; patch := CInt c |} /\
    dicts h' !! length (dicts h) = Some (own_features dflt features).
Proof.
  intros H. apply Version_inv in H
    as (dflt & a & b & c & Hd & Hp & Ha & Hb & Hc & -> & ->).
  exists dflt, a, b, c. repeat (split; [assumption|]). split.
  - simpl. now apply list_lookup_middle.
  - simpl. now apply list_lookup_middle.
Qed.

(** ** The methods *)

Section Methods.
Variables (h : heap) (v : ref) (o : instance).
Hypothesis Hv : objs h !! v = Some o.

Lemma get_instance_run : get_instance v h = (OK o, h).
Proof. unfold get_instance. now rewrite Hv. Qed.

Lemma tuple_run : tuple v h = (OK (tuple_of o), h).
Proof. unfold tuple, bind. now rewrite get_instance_run. Qed.

Lemma __str___run :
  __str__ v h = (OK (format_version (major o) (minor o) (patch o)), h).
Proof. unfold __str__, bind. now rewrite get_instance_run. Qed.

Lemma implements_run (d : gmap key bool) (f : key) :
  dicts h !! _features o = Some d ->
  implements v f h
  = (match d !! f with Some b => OK b | None => Raise (KeyError f) end, h).
Proof.
  intros Hd. unfold implements, bind. rewrite get_instance_run.
  unfold get_dict. rewrite Hd. now destruct (d !! f).
Qed.

Lemma match__run (s : string) :
  match_ v s h
  = (rbind (_str_to_version s true) (fun t =>
       let '(a, b, c) := t in
       OK (py_in a [major o; Wild] && py_in b [minor o; Wild]
           && py_in c [patch o; Wild])), h).
Proof.
  unfold match_, bind, lift.
  destruct (_str_to_version s true) as [[[a b] c]|e]; [|reflexivity].
  rewrite get_instance_run. cbn [rbind].
  destruct (py_in a _); [|reflexivity]. now destruct (py_in b _).
Qed.

Lemma compare_other (op : cmp_op) (x : pyobj) :
  compare op v (OOther x) h = (Raise (AssertionError (cannot_compare_msg x)), h).
Proof.
  assert (Heq : __eq__ v (OOther x) h
                = (Raise (AssertionError (cannot_compare_msg x)), h)).
  { unfold __eq__, bind. now rewrite tuple_run. }
  assert (Hlt : __lt__ v (OOther x) h
                = (Raise (AssertionError (cannot_compare_msg x)), h)).
  { unfold __lt__, bind. now rewrite tuple_run. }
  destruct op; cbn [compare]; try assumption;
    unfold __ne__, __le__, __gt__, __ge__, bind; now rewrite ?Heq, ?Hlt.
Qed.

End Methods.

Lemma __eq___version h v w o o' :
  objs h !! v = Some o -> objs h !! w = Some o' ->
  __eq__ v (OVersion w) h = (OK (tuple_eqb (tuple_of o) (tuple_of o')), h).
Proof.
  intros Hv Hw. unfold __eq__, bind. rewrite (tuple_run h v o Hv).
  cbn [_validate_operand ret]. now rewrite (tuple_run h w o' Hw).
Qed.

Lemma __lt___version h v w o o' :
  objs h !! v = Some o -> objs h !! w = Some o' ->
  __lt__ v (OVersion w) h = (tuple_ltb (tuple_of o) (tuple_of o'), h).
Proof.
  intros Hv Hw. unfold __lt__, bind. rewrite (tuple_run h v o Hv).
  cbn [_validate_operand ret]. now rewrite (tuple_run h w o' Hw).
Qed.

(** Comparing two instances compares their tuples and leaves the heap as
    it is. *)
Lemma compare_version (op : cmp_op) h v w o o' :
  objs h !! v = Some o -> objs h !! w = Some o' ->
  compare op v (OVersion w) h = (cmp_tuples op (tuple_of o) (tuple_of o'), h).
Proof.
  intros Hv Hw.
  pose proof (__eq___version h v w o o' Hv Hw) as Heq.
  pose proof (__lt___version h v w o o' Hv Hw) as Hlt.
  destruct op; cbn [compare cmp_tuples]; try assumption;
    unfold __le__, __gt__, __ge__, __ne__; unfold bind; rewrite ?Hlt, ?Heq;
    try reflexivity;
    destruct (tuple_ltb (tuple_of o) (tuple_of o')) as [[]|e];
    cbn [rbind negb orb andb ret]; rewrite ?Heq; reflexivity.
Qed.

(** Comparing with a string: the string goes through the constructor. *)
Lemma __eq___str h v o dflt s :
  objs h !! v = Some o -> dicts h !! _DEFAULT_FEATURES = Some dflt ->
  exists h', heap_extends h h' /\
    __eq__ v (OStr s) h
    = (rbind (_str_to_version s false) (fun t => OK (tuple_eqb (tuple_of o) t)), h').
Proof.
  intros Hv Hd. unfold __eq__, bind. rewrite (tuple_run h v o Hv).
  cbn [_validate_operand]. rewrite (Version_run h dflt) by assumption. cbv zeta.
  destruct (_str_to_version s false) as [[[a b] c]|e].
  - eexists. split; [|unfold tuple, bind, get_instance; cbn [alloc_obj objs alloc_dict];
                      rewrite list_lookup_middle by reflexivity; reflexivity].
    etransitivity; [apply heap_extends_alloc_dict|apply heap_extends_alloc_obj].
  - eexists. split; [apply heap_extends_alloc_dict|reflexivity].
Qed.

Lemma __lt___str h v o dflt s :
  objs h !! v = Some o -> dicts h !! _DEFAULT_FEATURES = Some dflt ->
  exists h', heap_extends h h' /\
    __lt__ v (OStr s) h
    = (rbind (_str_to_version s false) (fun t => tuple_ltb (tuple_of o) t), h').
Proof.
  intros Hv Hd. unfold __lt__, bind. rewrite (tuple_run h v o Hv).
  cbn [_validate_operand]. rewrite (Version_run h dflt) by assumption. cbv zeta.
  destruct (_str_to_version s false) as [[[a b] c]|e].
  - eexists. split; [|unfold tuple, bind, get_instance; cbn [alloc_obj objs alloc_dict];
                      rewrite list_lookup_middle by reflexivity; reflexivity].
    etransitivity; [apply heap_extends_alloc_dict|apply heap_extends_alloc_obj].
  - eexists. split; [apply heap_extends_alloc_dict|reflexivity].
Qed.

Lemma compare_str (op : cmp_op) h v o dflt s :
  objs h !! v = Some o -> dicts h !! _DEFAULT_FEATURES = Some dflt ->
  fst (compare op v (OStr s) h)
  = rbind (_str_to_version s false) (cmp_tuples op (tuple_of o)).
Proof.
  intros Hv Hd.
  destruct (__eq___str h v o dflt s Hv Hd) as (h1 & E1 & Heq).
  destruct (__lt___str h v o dflt s Hv Hd) as (h2 & E2 & Hlt).
  pose proof (heap_extends_obj _ _ _ _ E2 Hv) as Hv2.
  pose proof (heap_extends_dict _ _ _ _ E2 Hd) as Hd2.
  destruct (__eq___str h2 v o dflt s Hv2 Hd2) as (h3 & _ & Heq2).
  destruct op; cbn [compare cmp_tuples];
    unfold __le__, __gt__, __ge__, __ne__; unfold bind; rewrite ?Hlt, ?Heq;
    destruct (_str_to_version s false) as [t|e]; cbn [rbind fst cmp_tuples] in *;
    try reflexivity;
    destruct (tuple_ltb (tuple_of o) t) as [[]|e]; cbn [rbind negb orb andb ret fst];
    rewrite ?Heq2; reflexivity.
Qed.

(** ** Tuples of integers *)

Lemma component_eqb_eq (a b : component) : component_eqb a b = true <-> a = b.
Proof.
  destruct a as [x|], b as [y|]; simpl; split; try discriminate; try reflexivity.
  - intros H. apply Z.eqb_eq in H. now subst.
  - intros [= ->]. apply Z.eqb_refl.
Qed.

Lemma tuple_eqb_ints (a b : Z * Z * Z) : tuple_eqb (ints a) (ints b) = true <-> a = b.
Proof.
  destruct a as [[a1 a2] a3], b as [[b1 b2] b3]. cbn [ints tuple_eqb component_eqb].
  rewrite !andb_true_iff, !Z.eqb_eq. split.
  - intros [[-> ->] ->]. reflexivity.
  - intros [= -> -> ->]. auto.
Qed.

Lemma tuple_ltb_ints (a b : Z * Z * Z) :
  exists r, tuple_ltb (ints a) (ints b) = OK r /\ (r = true <-> lex_lt a b).
Proof.
  destruct a as [[a1 a2] a3], b as [[b1 b2] b3].
  cbn [ints tuple_ltb component_eqb component_ltb lex_lt].
  destruct (Z.eqb_spec a1 b1) as [->|H1]; cbn [negb].
  - destruct (Z.eqb_spec a2 b2) as [->|H2]; cbn [negb].
    + destruct (Z.eqb_spec a3 b3) as [->|H3]; cbn [negb].
      * exists false. split; [reflexivity|]. split; [discriminate|lia].
      * eexists. split; [reflexivity|]. rewrite Z.ltb_lt. lia.
    + eexists. split; [reflexivity|]. rewrite Z.ltb_lt. lia.
  - eexists. split; [reflexivity|]. rewrite Z.ltb_lt. lia.
Qed.

(** [lex_lt] is a strict total order. *)
Lemma lex_lt_irrefl (a : Z * Z * Z) : ~ lex_lt a a.
Proof. destruct a as [[a1 a2] a3]. simpl. lia. Qed.

Lemma lex_lt_trans (a b c : Z * Z * Z) : lex_lt a b -> lex_lt b c -> lex_lt a c.
Proof.
  destruct a as [[a1 a2] a3], b as [[b1 b2] b3], c as [[c1 c2] c3]. simpl. lia.
Qed.

Lemma lex_lt_trichotomy (a b : Z * Z * Z) : lex_lt a b \/ a = b \/ lex_lt b a.
Proof.
  destruct a as [[a1 a2] a3], b as [[b1 b2] b3]. simpl.
  destruct (Z.lt_total a1 b1) as [?|[->|?]]; auto.
  destruct (Z.lt_total a2 b2) as [?|[->|?]]; auto 6.
  destruct (Z.lt_total a3 b3) as [?|[->|?]]; auto 8.
Qed.

(** * The claims *)

(** C1.  Two versions built from valid strings [a] and [b] hold, in
    their fields [major], [minor], [patch], the integer triples that
    the parser reads from [a] and from [b], and [tuple] returns these
    triples.  [<], [==] and [>] between them return booleans: [<] is
    the lexicographic order of the triples (major first, on a tie
    minor, on a tie patch), [==] their equality and [>] the converse
    order; exactly one of the three is [True]. *)
Theorem version_order_total (h h1 h2 : heap) (a b : string)
    (fa fb : option (gmap key bool)) (va vb : ref) :
  Version a fa h = (OK va, h1) ->
  Version b fb h1 = (OK vb, h2) ->
  exists (oa ob : instance) (ta tb : Z * Z * Z) (lt eq gt : bool),
    _str_to_version a false = OK (ints ta) /\
    _str_to_version b false = OK (ints tb) /\
    objs h2 !! va = Some oa /\
    objs h2 !! vb = Some ob /\
    (major oa, minor oa, patch oa) = ints ta /\
    (major ob, minor ob, patch ob) = ints tb /\
    tuple va h2 = (OK (ints ta), h2) /\
    tuple vb h2 = (OK (ints tb), h2) /\
    __lt__ va (OVersion vb) h2 = (OK lt, h2) /\
    __eq__ va (OVersion vb) h2 = (OK eq, h2) /\
    __gt__ va (OVersion vb) h2 = (OK gt, h2) /\
    (lt = true <-> lex_lt ta tb) /\
    (eq = true <-> ta = tb) /\
    (gt = true <-> lex_lt tb ta) /\
    ((lt = true /\ eq = false /\ gt = false) \/
     (lt = false /\ eq = true /\ gt = false) \/
     (lt = false /\ eq = false /\ gt = true)).
Proof.
  intros Ha Hb.
  pose proof (allocates_Version b fb h1) as Ext. rewrite Hb in Ext. cbn [snd] in Ext.
  apply Version_obj in Ha as (da & a1 & a2 & a3 & _ & Pa & _ & _ & _ & Hoa & _).
  apply Version_obj in Hb as (db & b1 & b2 & b3 & _ & Pb & _ & _ & _ & Hob & _).
  apply (heap_extends_obj _ _ _ _ Ext) in Hoa.
  eexists _, _, (a1, a2, a3), (b1, b2, b3).
  destruct (tuple_ltb_ints (a1, a2, a3) (b1, b2, b3)) as (lt & Hlt & Hlt').
  pose proof (tuple_eqb_ints (a1, a2, a3) (b1, b2, b3)) as Heq'.
  pose proof (compare_version OpGt _ _ _ _ _ Hoa Hob) as Hgt.
  cbn [ints] in Hlt, Heq'.
  cbn [compare cmp_tuples] in Hgt. unfold tuple_of in Hgt.
  cbn [major minor patch] in Hgt. rewrite Hlt in Hgt. cbn [rbind] in Hgt.
  set (eq := tuple_eqb (CInt a1, CInt a2, CInt a3) (CInt b1, CInt b2, CInt b3)) in *.
  exists lt, eq, (negb lt && negb eq).
  split; [exact Pa|]. split; [exact Pb|].
  split; [exact Hoa|]. split; [exact Hob|].
  split; [reflexivity|]. split; [reflexivity|].
  split; [exact (tuple_run _ _ _ Hoa)|].
  split; [exact (tuple_run _ _ _ Hob)|].
  split; [rewrite (__lt___version _ _ _ _ _ Hoa Hob); now rewrite <- Hlt|].
  split; [exact (__eq___version _ _ _ _ _ Hoa Hob)|].
  split; [exact Hgt|].
  split; [exact Hlt'|]. split; [exact Heq'|].
  destruct (lex_lt_trichotomy (a1, a2, a3) (b1, b2, b3)) as [L|[E|G]].
  - assert (lt = true) as -> by now apply Hlt'.
    assert (eq = false) as ->.
    { apply not_true_is_false. intros E%Heq'. rewrite E in L.
      now apply lex_lt_irrefl in L. }
    split; [|auto]. split; [discriminate|]. intros G.
    destruct (lex_lt_irrefl _ (lex_lt_trans _ _ _ L G)).
  - assert (eq = true) as -> by now apply Heq'.
    assert (lt = false) as ->.
    { apply not_true_is_false. intros L%Hlt'. rewrite E in L.
      now apply lex_lt_irrefl in L. }
    split; [|auto 6]. split; [discriminate|]. rewrite E. intros G.
    now apply lex_lt_irrefl in G.
  - assert (lt = false) as ->.
    { apply not_true_is_false. intros L%Hlt'.
      destruct (lex_lt_irrefl _ (lex_lt_trans _ _ _ L G)). }
    assert (eq = false) as ->.
    { apply not_true_is_false. intros E%Heq'. rewrite E in G.
      now apply lex_lt_irrefl in G. }
    split; [|auto 8]. split; auto.
Qed.

(** At ["1.2.3"] and ["1.10.0"]: the triples are (1, 2, 3) and
    (1, 10, 0), [<] is [True] (2 < 10 as numbers), [==] and [>] are
    [False]. *)
Lemma version_order_total_witness :
  Version "1.2.3" None module_heap = (OK 0%nat, sample_heap1) /\
  Version "1.10.0" None sample_heap1 = (OK 1%nat, sample_heap2) /\
  (exists (oa ob : instance) (ta tb : Z * Z * Z) (lt eq gt : bool),
    _str_to_version "1.2.3" false = OK (ints ta) /\
    _str_to_version "1.10.0" false = OK (ints tb) /\
    objs sample_heap2 !! 0%nat = Some oa /\
    objs sample_heap2 !! 1%nat = Some ob /\
    (major oa, minor oa, patch oa) = ints ta /\
    (major ob, minor ob, patch ob) = ints tb /\
    tuple 0%nat sample_heap2 = (OK (ints ta), sample_heap2) /\
    tuple 1%nat sample_heap2 = (OK (ints tb), sample_heap2) /\
    __lt__ 0%nat (OVersion 1%nat) sample_heap2 = (OK lt, sample_heap2) /\
    __eq__ 0%nat (OVersion 1%nat) sample_heap2 = (OK eq, sample_heap2) /\
    __gt__ 0%nat (OVersion 1%nat) sample_heap2 = (OK gt, sample_heap2) /\
    (lt = true <-> lex_lt ta tb) /\
    (eq = true <-> ta = tb) /\
    (gt = true <-> lex_lt tb ta) /\
    ((lt = true /\ eq = false /\ gt = false) \/
     (lt = false /\ eq = true /\ gt = false) \/
     (lt = false /\ eq = false /\ gt = true))) /\
  tuple 0%nat sample_heap2 = (OK (CInt 1, CInt 2, CInt 3), sample_heap2) /\
  tuple 1%nat sample_heap2 = (OK (CInt 1, CInt 10, CInt 0), sample_heap2) /\
  __lt__ 0%nat (OVersion 1%nat) sample_heap2 = (OK true, sample_heap2) /\
  __eq__ 0%nat (OVersion 1%nat) sample_heap2 = (OK false, sample_heap2) /\
  __gt__ 0%nat (OVersion 1%nat) sample_heap2 = (OK false, sample_heap2).
Proof.
  split; [vm_compute; reflexivity|]. split; [vm_compute; reflexivity|].
  split.
  - apply (version_order_total module_heap sample_heap1 sample_heap2
             "1.2.3" "1.10.0" None None 0%nat 1%nat);
      vm_compute; reflexivity.
  - repeat split; vm_compute; reflexivity.
Defined.

(** C2.  For non-negative [M], [N], [P] the constructor accepts the
    string ["M.N.P"] and [str] of the result is that string. *)
Theorem str_round_trip (h : heap) (dflt : gmap key bool)
    (features : option (gmap key bool)) (M N P : Z) :
  dicts h !! _DEFAULT_FEATURES = Some dflt ->
  0 <= M -> 0 <= N -> 0 <= P ->
  let s := format_version (CInt M) (CInt N) (CInt P) in
  exists v h', Version s features h = (OK v, h') /\ __str__ v h' = (OK s, h').
Proof.
  intros Hd HM HN HP s.
  assert (Hparse : _str_to_version s false = OK (CInt M, CInt N, CInt P)).
  { apply _str_to_version_ok.
    exists (str_of_int M), (str_of_int N), (str_of_int P), "",
      (CInt M), (CInt N), (CInt P).
    split; [unfold s, format_version; now rewrite append_nil_r|].
    split; [now left|].
    repeat split; try reflexivity; left;
      (split; [now apply str_of_int_number|]); eexists;
      (split; [now apply py_int_str_of_int|]); auto. }
  rewrite (Version_run h dflt) by assumption. cbv zeta. rewrite Hparse.
  do 2 eexists. split; [reflexivity|].
  apply (__str___run _ _ {| _features := length (dicts h); major := CInt M;
                            minor := CInt N; patch := CInt P |}).
  simpl. now apply list_lookup_middle.
Qed.

Lemma str_round_trip_witness :
  dicts module_heap !! _DEFAULT_FEATURES = Some {[ KFeature DUMMY := false ]} /\
  0 <= 1 /\ 0 <= 20 /\ 0 <= 0 /\
  exists v h',
    Version "1.20.0" None module_heap = (OK v, h') /\ __str__ v h' = (OK "1.20.0", h').
Proof.
  split; [reflexivity|]. split; [lia|]. split; [lia|]. split; [lia|].
  apply (str_round_trip module_heap {[ KFeature DUMMY := false ]} None 1 20 0);
    [reflexivity|lia|lia|lia].
Defined.

Lemma version_grammarb_spec wild (s : string) :
  version_grammarb wild s = true <-> version_grammar wild s.
Proof.
  unfold version_grammarb, version_grammar. split.
  - destruct (split_version wild s) as [[[a b] c]|] eqn:E; [|discriminate].
    intros H. apply String.eqb_eq in H.
    destruct (split_version_sound _ _ _ _ _ E) as (tail & _ & _ & Ha & Hb & Hc).
    exists a, b, c. auto.
  - intros (a & b & c & -> & Ha & Hb & Hc).
    pose proof (split_version_complete wild a b c "" Ha Hb Hc eq_refl) as E.
    rewrite append_nil_r in E. rewrite E. apply String.eqb_refl.
Qed.

(** A string of the grammar is parsed. *)
Lemma grammar_accepted wild (s : string) :
  version_grammar wild s -> exists t, _str_to_version s wild = OK t.
Proof.
  intros (a & b & c & -> & Ha & Hb & Hc).
  destruct (convert_component _ _ Ha) as (x & Hx & Cx).
  destruct (convert_component _ _ Hb) as (y & Hy & Cy).
  destruct (convert_component _ _ Hc) as (z & Hz & Cz).
  exists (x, y, z). apply _str_to_version_ok.
  exists a, b, c, "", x, y, z. rewrite append_nil_r. auto 10.
Qed.

Lemma py_in_wild (x e : component) : py_in x [e; Wild] = true <-> x = Wild \/ x = e.
Proof.
  unfold py_in. cbn [existsb]. rewrite !orb_true_iff, !component_eqb_eq.
  split; [intros [->|[->|[=]]]|intros [->| ->]]; auto.
Qed.

(** C3.  For a constructed version [v], holding [(M, N, P)], and a
    string [s] of the wildcard grammar, parsed as [(a, b, c)]:
    [v.match(s)] returns [True] exactly when each of [a], [b], [c] is the
    wildcard or equal to the component of [v] at its place. *)
Theorem match_iff (h h' : heap) (s0 : string) (features : option (gmap key bool))
    (v : ref) (s : string) :
  Version s0 features h = (OK v, h') ->
  version_grammar true s ->
  exists (a b c : component) (M N P : Z) (r : bool),
    _str_to_version s true = OK (a, b, c) /\
    tuple v h' = (OK (CInt M, CInt N, CInt P), h') /\
    match_ v s h' = (OK r, h') /\
    (r = true <->
     (a = Wild \/ a = CInt M) /\ (b = Wild \/ b = CInt N) /\ (c = Wild \/ c = CInt P)).
Proof.
  intros Hv Hs.
  apply Version_obj in Hv as (dflt & M & N & P & _ & _ & _ & _ & _ & Ho & _).
  destruct (grammar_accepted _ _ Hs) as ([[a b] c] & Hp).
  exists a, b, c, M, N, P. eexists.
  split; [exact Hp|]. split; [exact (tuple_run _ _ _ Ho)|].
  split.
  - rewrite (match__run _ _ _ Ho), Hp. reflexivity.
  - cbn [major minor patch]. rewrite !andb_true_iff, !py_in_wild. tauto.
Qed.

Lemma match_iff_witness :
  Version "1.2.3" None module_heap = (OK 0%nat, sample_heap1) /\
  version_grammar true "1.*.3" /\
  exists (a b c : component) (M N P : Z) (r : bool),
    _str_to_version "1.*.3" true = OK (a, b, c) /\
    tuple 0%nat sample_heap1 = (OK (CInt M, CInt N, CInt P), sample_heap1) /\
    match_ 0%nat "1.*.3" sample_heap1 = (OK r, sample_heap1) /\
    (r = true <->
     (a = Wild \/ a = CInt M) /\ (b = Wild \/ b = CInt N) /\ (c = Wild \/ c = CInt P)).
Proof.
  split; [vm_compute; reflexivity|].
  split; [apply version_grammarb_spec; reflexivity|].
  apply (match_iff module_heap sample_heap1 "1.2.3" None 0%nat "1.*.3").
  - vm_compute. reflexivity.
  - apply version_grammarb_spec. reflexivity.
Defined.

(** The four matches of the description. *)
Example match_examples :
  fst (match_ 0%nat "1.2.3" sample_heap1) = OK true /\
  fst (match_ 0%nat "1.2.*" sample_heap1) = OK true /\
  fst (match_ 0%nat "1.3.*" sample_heap1) = OK false /\
  fst (match_ 0%nat "*.*.*" sample_heap1) = OK true.
Proof. repeat split; vm_compute; reflexivity. Qed.

(** Outside the grammar, and not a string of the grammar followed by one
    newline: the constructor raises, and the message quotes the string
    and names the pattern. *)
Theorem Version_rejects (h : heap) (dflt : gmap key bool) (s : string)
    (features : option (gmap key bool)) :
  dicts h !! _DEFAULT_FEATURES = Some dflt ->
  ~ version_grammar false s ->
  (forall s0, s = s0 ++ nl -> ~ version_grammar false s0) ->
  fst (Version s features h)
  = Raise (ValueError ("Invalid version '" ++ s
                       ++ "'. Format should be x.y.z with {x,y,z} being digits.")).
Proof.
  intros Hd Hs Hnl. rewrite (Version_run h dflt) by assumption. cbv zeta.
  destruct (_str_to_version s false) as [t|e] eqn:E.
  - exfalso. apply _str_to_version_ok in E
      as (a & b & c & tail & x & y & z & -> & Ht & Cx & Cy & Cz & _).
    assert (Hc : forall a x, component_of false a x -> is_component false a = true).
    { intros a0 x0 [(Hn & _)|(Hw & _)]; [|discriminate].
      apply is_component_cases. auto. }
    assert (G : version_grammar false (a ++ "." ++ b ++ "." ++ c)).
    { exists a, b, c. split; [reflexivity|].
      split; [exact (Hc _ _ Cx)|]. split; [exact (Hc _ _ Cy)|exact (Hc _ _ Cz)]. }
    destruct Ht as [->| ->].
    + apply Hs. now rewrite append_nil_r.
    + apply (Hnl (a ++ "." ++ b ++ "." ++ c)); [|exact G].
      now rewrite !append_assoc.
  - apply _str_to_version_raises in E. subst e. cbn [fst].
    f_equal. f_equal. unfold invalid_version_msg. rewrite !append_assoc. reflexivity.
Qed.

(** The four rejections of the description. *)
Example Version_rejects_examples :
  fst (Version "1.2" None module_heap)
  = Raise (ValueError "Invalid version '1.2'. Format should be x.y.z with {x,y,z} being digits.") /\
  fst (Version "1.2.3.4" None module_heap)
  = Raise (ValueError "Invalid version '1.2.3.4'. Format should be x.y.z with {x,y,z} being digits.") /\
  fst (Version "a.b.c" None module_heap)
  = Raise (ValueError "Invalid version 'a.b.c'. Format should be x.y.z with {x,y,z} being digits.") /\
  fst (Version "1.2.*" None module_heap)
  = Raise (ValueError "Invalid version '1.2.*'. Format should be x.y.z with {x,y,z} being digits.").
Proof. repeat split; vm_compute; reflexivity. Qed.

(** C4.  The string ["1.2.3\n"] is not of the grammar (a character
    follows the patch), and the constructor accepts it: [$] of [re]
    also holds before a newline that ends the string.  The version
    built is 1.2.3. *)
Theorem Version_accepts_trailing_newline :
  ~ version_grammar false ("1.2.3" ++ nl) /\
  exists v h',
    Version ("1.2.3" ++ nl) None module_heap = (OK v, h') /\
    tuple v h' = (OK (CInt 1, CInt 2, CInt 3), h') /\
    __str__ v h' = (OK "1.2.3", h').
Proof.
  split.
  - intros H. apply version_grammarb_spec in H. discriminate H.
  - do 2 eexists. split; [vm_compute; reflexivity|].
    split; vm_compute; reflexivity.
Qed.

(** C5.  Comparing with a string: when the constructor accepts the
    string, each of the six operators returns what it returns on the
    version built from it; when the constructor raises, the error is the
    [ValueError] of the parser and the operator raises it.  So
    [Version("1.0.0") == "1.0.0"] and [Version("1.0.1") > "1.0.0"] are
    [True]. *)
Theorem compare_string_operand (op : cmp_op) (h : heap) (v : ref) (o : instance)
    (dflt : gmap key bool) (s : string) :
  objs h !! v = Some o ->
  dicts h !! _DEFAULT_FEATURES = Some dflt ->
  (forall w h1, Version s None h = (OK w, h1) ->
     fst (compare op v (OStr s) h) = fst (compare op v (OVersion w) h1)) /\
  (forall e h1, Version s None h = (Raise e, h1) ->
     e = ValueError (invalid_version_msg s false) /\
     fst (compare op v (OStr s) h) = Raise e) /\
  fst ((let* v := Version "1.0.0" None in __eq__ v (OStr "1.0.0")) module_heap)
  = OK true /\
  fst ((let* v := Version "1.0.1" None in __gt__ v (OStr "1.0.0")) module_heap)
  = OK true.
Proof.
  intros Hv Hd. pose proof (compare_str op h v o dflt s Hv Hd) as Hs.
  split; [|split; [|split; vm_compute; reflexivity]].
  - intros w h1 Hw.
    pose proof (allocates_Version s None h) as Ext. rewrite Hw in Ext. cbn [snd] in Ext.
    apply Version_obj in Hw as (d' & a & b & c & _ & Hp & _ & _ & _ & Hw & _).
    rewrite (compare_version op h1 v w _ _ (heap_extends_obj _ _ _ _ Ext Hv) Hw).
    rewrite Hs, Hp. reflexivity.
  - intros e h1 He. rewrite (Version_run h dflt) in He by assumption. cbv zeta in He.
    destruct (_str_to_version s false) as [[[a b] c]|e'] eqn:E; [discriminate|].
    injection He as -> _. split; [now apply _str_to_version_raises in E|].
    now rewrite Hs.
Qed.

Lemma compare_string_operand_witness :
  objs sample_heap1 !! 0%nat
  = Some {| _features := 1%nat; major := CInt 1; minor := CInt 2; patch := CInt 3 |} /\
  dicts sample_heap1 !! _DEFAULT_FEATURES = Some {[ KFeature DUMMY := false ]} /\
  (forall w h1, Version "1.2.4" None sample_heap1 = (OK w, h1) ->
     fst (compare OpLe 0%nat (OStr "1.2.4") sample_heap1)
     = fst (compare OpLe 0%nat (OVersion w) h1)).
Proof.
  split; [reflexivity|]. split; [reflexivity|].
  apply (compare_string_operand OpLe sample_heap1 0%nat
           {| _features := 1%nat; major := CInt 1; minor := CInt 2; patch := CInt 3 |}
           {[ KFeature DUMMY := false ]} "1.2.4"); reflexivity.
Defined.

(** C6.  With an operand that is neither a string nor a [Version], each
    of the six operators raises [AssertionError]; the message shows the
    operand and its type.  No boolean is returned, the heap is as
    before. *)
Theorem compare_type_mismatch (op : cmp_op) (h : heap) (v : ref) (o : instance)
    (x : pyobj) :
  objs h !! v = Some o ->
  compare op v (OOther x) h
  = (Raise (AssertionError
             (py_str x ++ " (type " ++ py_type x ++ ") cannot be compared to version.")),
     h).
Proof. intros Hv. exact (compare_other h v o Hv op x). Qed.

Lemma compare_type_mismatch_witness :
  objs sample_heap1 !! 0%nat
  = Some {| _features := 1%nat; major := CInt 1; minor := CInt 2; patch := CInt 3 |} /\
  compare OpEq 0%nat (OOther five) sample_heap1
  = (Raise (AssertionError "5 (type <class 'int'>) cannot be compared to version."),
     sample_heap1).
Proof.
  split; [reflexivity|].
  apply (compare_type_mismatch OpEq sample_heap1 0%nat
           {| _features := 1%nat; major := CInt 1; minor := CInt 2; patch := CInt 3 |}
           five).
  reflexivity.
Defined.

(** C7.  The dict of a constructed version holds the defaults overridden
    by the [features] argument; from then on [implements(f)] returns the
    boolean stored for [f], and raises [KeyError] when [f] has no
    entry. *)
Theorem implements_lookup (h h' : heap) (s : string)
    (features : option (gmap key bool)) (v : ref) :
  Version s features h = (OK v, h') ->
  exists (o : instance) (dflt own : gmap key bool),
    objs h' !! v = Some o /\
    dicts h' !! _features o = Some own /\
    dicts h !! _DEFAULT_FEATURES = Some dflt /\
    own = own_features dflt features /\
    forall h'' f, heap_extends h' h'' ->
      (forall b, own !! f = Some b -> implements v f h'' = (OK b, h'')) /\
      (own !! f = None -> implements v f h'' = (Raise (KeyError f), h'')).
Proof.
  intros Hv.
  apply Version_obj in Hv as (dflt & a & b & c & Hd & _ & _ & _ & _ & Ho & Hown).
  eexists _, dflt, _. split; [exact Ho|]. split; [exact Hown|].
  split; [exact Hd|]. split; [reflexivity|].
  intros h'' f Ext.
  pose proof (implements_run h'' v _ (heap_extends_obj _ _ _ _ Ext Ho) _ f
                (heap_extends_dict _ _ _ _ Ext Hown)) as Hrun.
  split; [intros b' Hb|intros Hb]; rewrite Hrun; cbn [_features]; now rewrite Hb.
Qed.

Lemma implements_lookup_witness :
  Version "1.2.3" None module_heap = (OK 0%nat, sample_heap1) /\
  exists (o : instance) (dflt own : gmap key bool),
    objs sample_heap1 !! 0%nat = Some o /\
    dicts sample_heap1 !! _features o = Some own /\
    dicts module_heap !! _DEFAULT_FEATURES = Some dflt /\
    own = own_features dflt None /\
    forall h'' f, heap_extends sample_heap1 h'' ->
      (forall b, own !! f = Some b -> implements 0%nat f h'' = (OK b, h'')) /\
      (own !! f = None -> implements 0%nat f h'' = (Raise (KeyError f), h'')).
Proof.
  split; [vm_compute; reflexivity|].
  apply (implements_lookup module_heap sample_heap1 "1.2.3" None 0%nat).
  vm_compute. reflexivity.
Defined.

Lemma lookup_own_features dflt features f :
  dict_get (own_features dflt features) f
  = match feature_arg features f with
    | Some b => OK b
    | None => dict_get dflt f
    end.
Proof.
  unfold dict_get. destruct features as [fs|]; cbn [own_features feature_arg];
    [|reflexivity].
  rewrite lookup_union. destruct (fs !! f), (dflt !! f); reflexivity.
Qed.

(** C8.  A constructed version answers [implements(f)] with the entry
    of the [features] argument for [f] when there is one, even when the
    defaults have none for [f], and with the default otherwise.  The
    class attribute is as before, and a version constructed next without
    [features] answers with the defaults.  With the default
    [{DUMMY: False}]: [False] without [features], [True] with
    [{DUMMY: True}]. *)
Theorem features_override (h h' : heap) (dflt : gmap key bool) (s : string)
    (features : option (gmap key bool)) (v : ref) :
  dicts h !! _DEFAULT_FEATURES = Some dflt ->
  Version s features h = (OK v, h') ->
  (forall f, fst (implements v f h')
             = match feature_arg features f with
               | Some b => OK b
               | None => dict_get dflt f
               end) /\
  dicts h' !! _DEFAULT_FEATURES = Some dflt /\
  (forall s2 v2 h2 f, Version s2 None h' = (OK v2, h2) ->
     fst (implements v2 f h2) = dict_get dflt f /\
     fst (implements v f h2) = fst (implements v f h')) /\
  fst ((let* v := Version "1.0.0" None in implements v (KFeature DUMMY)) module_heap)
  = OK false /\
  fst ((let* v := Version "1.0.0" (Some {[ KFeature DUMMY := true ]}) in
        implements v (KFeature DUMMY)) module_heap)
  = OK true.
Proof.
  intros Hd Hv.
  pose proof (allocates_Version s features h) as Ext. rewrite Hv in Ext. cbn [snd] in Ext.
  pose proof (heap_extends_dict _ _ _ _ Ext Hd) as Hd'.
  apply Version_obj in Hv as (d0 & a & b & c & Hd0 & _ & _ & _ & _ & Ho & Hown).
  pose proof (eq_trans (eq_sym Hd0) Hd) as [= ->].
  assert (Himpl : forall f, implements v f h'
                            = (dict_get (own_features dflt features) f, h')).
  { intros f. exact (implements_run h' v _ Ho _ f Hown). }
  split; [|split; [exact Hd'|split; [|split; vm_compute; reflexivity]]].
  - intros f. rewrite Himpl. apply lookup_own_features.
  - intros s2 v2 h2 f Hv2.
    pose proof (allocates_Version s2 None h') as Ext2. rewrite Hv2 in Ext2. cbn [snd] in Ext2.
    apply Version_obj in Hv2 as (d2 & a2 & b2 & c2 & Hd2 & _ & _ & _ & _ & Ho2 & Hown2).
    pose proof (eq_trans (eq_sym Hd2) Hd') as [= ->]. split.
    + now rewrite (implements_run h2 v2 _ Ho2 _ f Hown2).
    + rewrite Himpl.
      now rewrite (implements_run h2 v _ (heap_extends_obj _ _ _ _ Ext2 Ho) _ f
                     (heap_extends_dict _ _ _ _ Ext2 Hown)).
Qed.

Lemma features_override_witness :
  dicts module_heap !! _DEFAULT_FEATURES = Some {[ KFeature DUMMY := false ]} /\
  Version "1.2.3" (Some {[ KFeature DUMMY := true; KStr "NEW" := true ]}) module_heap
  = (OK 0%nat,
     snd (Version "1.2.3" (Some {[ KFeature DUMMY := true; KStr "NEW" := true ]})
            module_heap)) /\
  forall f,
    fst (implements 0%nat f
           (snd (Version "1.2.3" (Some {[ KFeature DUMMY := true; KStr "NEW" := true ]})
                   module_heap)))
    = match feature_arg (Some {[ KFeature DUMMY := true; KStr "NEW" := true ]}) f with
      | Some b => OK b
      | None => dict_get {[ KFeature DUMMY := false ]} f
      end.
Proof.
  split; [reflexivity|]. split; [vm_compute; reflexivity|].
  apply (features_override module_heap _ {[ KFeature DUMMY := false ]} "1.2.3"
           (Some {[ KFeature DUMMY := true; KStr "NEW" := true ]}) 0%nat);
    [reflexivity|vm_compute; reflexivity].
Defined.

(** ** No method writes to an object that exists *)

Lemma allocates_tuple v : allocates (tuple v).
Proof.
  apply allocates_bind; [apply allocates_get_instance|intros; apply allocates_ret].
Qed.

Lemma allocates___str__ v : allocates (__str__ v).
Proof.
  apply allocates_bind; [apply allocates_get_instance|intros; apply allocates_ret].
Qed.

Lemma allocates_implements v f : allocates (implements v f).
Proof.
  apply allocates_bind; [apply allocates_get_instance|intros o].
  apply allocates_bind; [apply allocates_get_dict|intros d].
  destruct (d !! f); [apply allocates_ret|apply allocates_raise].
Qed.

Lemma allocates_match_ v s : allocates (match_ v s).
Proof.
  apply allocates_bind; [apply allocates_lift|intros [[a b] c]].
  apply allocates_bind; [apply allocates_get_instance|intros o].
  destruct (py_in a _); [|apply allocates_ret].
  destruct (py_in b _); apply allocates_ret.
Qed.

Lemma allocates__validate_operand v other : allocates (_validate_operand v other).
Proof.
  destruct other; [apply allocates_Version|apply allocates_ret|apply allocates_raise].
Qed.

Lemma allocates___eq__ v other : allocates (__eq__ v other).
Proof.
  apply allocates_bind; [apply allocates_tuple|intros a].
  apply allocates_bind; [apply allocates__validate_operand|intros w].
  apply allocates_bind; [apply allocates_tuple|intros b]. apply allocates_ret.
Qed.

Lemma allocates___lt__ v other : allocates (__lt__ v other).
Proof.
  apply allocates_bind; [apply allocates_tuple|intros a].
  apply allocates_bind; [apply allocates__validate_operand|intros w].
  apply allocates_bind; [apply allocates_tuple|intros b]. apply allocates_lift.
Qed.

Lemma allocates___ne__ v other : allocates (__ne__ v other).
Proof.
  apply allocates_bind; [apply allocates___eq__|intros; apply allocates_ret].
Qed.

Lemma allocates_compare op v other : allocates (compare op v other).
Proof.
  destruct op; cbn [compare].
  - apply allocates___eq__.
  - apply allocates___ne__.
  - apply allocates___lt__.
  - apply allocates_bind; [apply allocates___lt__|intros []];
      [apply allocates_ret|apply allocates___eq__].
  - apply allocates_bind; [apply allocates___lt__|intros []]; cbn [negb];
      [apply allocates_ret|apply allocates___ne__].
  - apply allocates_bind; [apply allocates___lt__|intros; apply allocates_ret].
Qed.

Lemma perform_extends self op h : heap_extends h (perform self op h).
Proof.
  destruct op; cbn [perform].
  - apply allocates_implements.
  - apply allocates___str__.
  - apply allocates_tuple.
  - apply allocates_compare.
  - apply allocates_match_.
Qed.

Lemma perform_all_extends calls h : heap_extends h (perform_all calls h).
Proof.
  revert h. induction calls as [|[self op] calls IH]; intros h; cbn [perform_all].
  - reflexivity.
  - etransitivity; [apply perform_extends|apply IH].
Qed.

(** C9.  A constructed version holds three non-negative integers, none
    of them the wildcard, and after any sequence of [implements],
    [str], [tuple], comparisons and [match], on any instances and with
    any arguments, it holds the same three. *)
Theorem fields_invariant (h h' : heap) (s : string)
    (features : option (gmap key bool)) (v : ref) :
  Version s features h = (OK v, h') ->
  exists (o : instance) (M N P : Z),
    objs h' !! v = Some o /\
    major o = CInt M /\ minor o = CInt N /\ patch o = CInt P /\
    0 <= M /\ 0 <= N /\ 0 <= P /\
    major o <> Wild /\ minor o <> Wild /\ patch o <> Wild /\
    forall calls : list (ref * operation),
      objs (perform_all calls h') !! v = Some o.
Proof.
  intros Hv.
  apply Version_obj in Hv as (dflt & a & b & c & _ & _ & Ha & Hb & Hc & Ho & _).
  eexists _, a, b, c. split; [exact Ho|]. cbn [major minor patch].
  repeat (split; [reflexivity || assumption || discriminate|]).
  intros calls. exact (heap_extends_obj _ _ _ _ (perform_all_extends calls h') Ho).
Qed.

Lemma fields_invariant_witness :
  Version "1.2.3" None module_heap = (OK 0%nat, sample_heap1) /\
  exists (o : instance) (M N P : Z),
    objs sample_heap1 !! 0%nat = Some o /\
    major o = CInt M /\ minor o = CInt N /\ patch o = CInt P /\
    0 <= M /\ 0 <= N /\ 0 <= P /\
    major o <> Wild /\ minor o <> Wild /\ patch o <> Wild /\
    forall calls : list (ref * operation),
      objs (perform_all calls sample_heap1) !! 0%nat = Some o.
Proof.
  split; [vm_compute; reflexivity|].
  apply (fields_invariant module_heap sample_heap1 "1.2.3" None 0%nat).
  vm_compute. reflexivity.
Defined.

(** C10.  The constructor accepts ["01.2.3"]; [str] of the version is
    ["1.2.3"], another string; the version equals the one built from
    ["1.2.3"]. *)
Theorem leading_zeros_normalised (h : heap) (dflt : gmap key bool) :
  dicts h !! _DEFAULT_FEATURES = Some dflt ->
  exists (v w : ref) (h1 h2 : heap),
    Version "01.2.3" None h = (OK v, h1) /\
    Version "1.2.3" None h1 = (OK w, h2) /\
    __str__ v h2 = (OK "1.2.3", h2) /\
    "1.2.3" <> "01.2.3" /\
    __eq__ v (OVersion w) h2 = (OK true, h2).
Proof.
  intros Hd.
  destruct (Version "01.2.3" None h) as [r1 h1] eqn:E1.
  pose proof E1 as E1'. rewrite (Version_run h dflt) in E1' by assumption.
  change (_str_to_version "01.2.3" false) with (OK (CInt 1, CInt 2, CInt 3)) in E1'.
  cbv zeta iota beta in E1'. injection E1' as <- Hh1.
  pose proof (allocates_Version "01.2.3" None h) as Ext1.
  rewrite E1 in Ext1. cbn [snd] in Ext1.
  pose proof (heap_extends_dict _ _ _ _ Ext1 Hd) as Hd1.
  destruct (Version "1.2.3" None h1) as [r2 h2] eqn:E2.
  pose proof E2 as E2'. rewrite (Version_run h1 dflt) in E2' by assumption.
  change (_str_to_version "1.2.3" false) with (OK (CInt 1, CInt 2, CInt 3)) in E2'.
  cbv zeta iota beta in E2'. injection E2' as <- Hh2.
  pose proof (allocates_Version "1.2.3" None h1) as Ext2.
  rewrite E2 in Ext2. cbn [snd] in Ext2.
  assert (Hv : objs h2 !! length (objs h)
               = Some {| _features := length (dicts h); major := CInt 1;
                         minor := CInt 2; patch := CInt 3 |}).
  { apply (heap_extends_obj _ _ _ _ Ext2). rewrite <- Hh1. simpl.
    now apply list_lookup_middle. }
  assert (Hw : objs h2 !! length (objs h1)
               = Some {| _features := length (dicts h1); major := CInt 1;
                         minor := CInt 2; patch := CInt 3 |}).
  { rewrite <- Hh2. simpl. now apply list_lookup_middle. }
  exists (length (objs h)), (length (objs h1)), h1, h2.
  split; [reflexivity|]. split; [exact E2|].
  split; [exact (__str___run _ _ _ Hv)|]. split; [discriminate|].
  exact (__eq___version _ _ _ _ _ Hv Hw).
Qed.

Lemma leading_zeros_normalised_witness :
  dicts module_heap !! _DEFAULT_FEATURES = Some {[ KFeature DUMMY := false ]} /\
  exists (v w : ref) (h1 h2 : heap),
    Version "01.2.3" None module_heap = (OK v, h1) /\
    Version "1.2.3" None h1 = (OK w, h2) /\
    __str__ v h2 = (OK "1.2.3", h2) /\
    "1.2.3" <> "01.2.3" /\
    __eq__ v (OVersion w) h2 = (OK true, h2).
Proof.
  split; [reflexivity|].
  apply (leading_zeros_normalised module_heap {[ KFeature DUMMY := false ]}).
  reflexivity.
Defined.


(** * Further properties of the module *)

(** ** Auxiliary facts *)

Lemma component_of_weaken (a : string) (x : component) :
  component_of false a x -> component_of true a x.
Proof. intros [H|(Hw & _)]; [now left|discriminate]. Qed.

Lemma resolved_to_wild (s : string) (t : version_tuple) :
  _str_to_version s false = OK t -> _str_to_version s true = OK t.
Proof.
  intros H. apply _str_to_version_ok in H
    as (a & b & c & tail & x & y & z & Hs & Ht & Cx & Cy & Cz & Htu).
  apply _str_to_version_ok. exists a, b, c, tail, x, y, z.
  auto 10 using component_of_weaken.
Qed.

Lemma component_of_int w (n : Z) : 0 <= n -> component_of w (str_of_int n) (CInt n).
Proof.
  intros H. left. split; [now apply str_of_int_number|].
  exists n. split; [now apply py_int_str_of_int|]. auto.
Qed.

(** Both patterns read a rendered triple back. *)
Lemma parse_format_version w (M N P : Z) :
  0 <= M -> 0 <= N -> 0 <= P ->
  _str_to_version (format_version (CInt M) (CInt N) (CInt P)) w
  = OK (CInt M, CInt N, CInt P).
Proof.
  intros HM HN HP. apply _str_to_version_ok.
  exists (str_of_int M), (str_of_int N), (str_of_int P), "",
    (CInt M), (CInt N), (CInt P).
  split; [unfold format_version; now rewrite append_nil_r|].
  split; [now left|]. auto using component_of_int.
Qed.

Lemma format_version_grammar (M N P : Z) :
  0 <= M -> 0 <= N -> 0 <= P ->
  version_grammar false (format_version (CInt M) (CInt N) (CInt P)).
Proof.
  intros HM HN HP. exists (str_of_int M), (str_of_int N), (str_of_int P).
  split; [reflexivity|].
  repeat split; apply is_component_cases; left; now apply str_of_int_number.
Qed.

Lemma py_in_int (x e : Z) : py_in (CInt x) [CInt e; Wild] = Z.eqb e x.
Proof. unfold py_in. cbn [existsb component_eqb]. now rewrite !orb_false_r. Qed.

(** Two versions constructed one after the other, in the heap that
    holds both. *)
Lemma two_versions (h h1 h2 : heap) (a b : string)
    (fa fb : option (gmap key bool)) (va vb : ref) :
  Version a fa h = (OK va, h1) ->
  Version b fb h1 = (OK vb, h2) ->
  exists (la lb : ref) (a1 a2 a3 b1 b2 b3 : Z),
    objs h2 !! va = Some {| _features := la; major := CInt a1;
                            minor := CInt a2; patch := CInt a3 |} /\
    objs h2 !! vb = Some {| _features := lb; major := CInt b1;
                            minor := CInt b2; patch := CInt b3 |} /\
    _str_to_version a false = OK (CInt a1, CInt a2, CInt a3) /\
    _str_to_version b false = OK (CInt b1, CInt b2, CInt b3) /\
    (0 <= a1 /\ 0 <= a2 /\ 0 <= a3) /\ (0 <= b1 /\ 0 <= b2 /\ 0 <= b3) /\
    heap_extends h1 h2.
Proof.
  intros Ha Hb.
  pose proof (allocates_Version b fb h1) as Ext. rewrite Hb in Ext. cbn [snd] in Ext.
  apply Version_obj in Ha as (da & a1 & a2 & a3 & _ & Pa & ? & ? & ? & Hoa & _).
  apply Version_obj in Hb as (db & b1 & b2 & b3 & _ & Pb & ? & ? & ? & Hob & _).
  apply (heap_extends_obj _ _ _ _ Ext) in Hoa.
  exists (length (dicts h)), (length (dicts h1)), a1, a2, a3, b1, b2, b3.
  auto 12.
Qed.

(** ** The constructor *)

(** X1.  A construction that raises raises the [ValueError] of the
    parser, adds no instance to the heap and leaves every dict that
    existed, the class attribute among them, as it was: only the copy
    made for the instance stays behind. *)
Theorem Version_failure_leaves_no_instance (h h' : heap) (dflt : gmap key bool)
    (s : string) (features : option (gmap key bool)) (e : exn) :
  dicts h !! _DEFAULT_FEATURES = Some dflt ->
  Version s features h = (Raise e, h') ->
  e = ValueError (invalid_version_msg s false) /\
  objs h' = objs h /\
  dicts h' = (dicts h ++ [own_features dflt features])%list /\
  dicts h' !! _DEFAULT_FEATURES = Some dflt.
Proof.
  intros Hd H. rewrite (Version_run h dflt) in H by assumption. cbv zeta in H.
  destruct (_str_to_version s false) as [[[a b] c]|e'] eqn:E; [discriminate|].
  injection H as -> <-. split; [now apply _str_to_version_raises in E|].
  split; [reflexivity|]. split; [reflexivity|].
  simpl. now apply lookup_app_l_Some.
Qed.

Lemma Version_failure_leaves_no_instance_witness :
  dicts module_heap !! _DEFAULT_FEATURES = Some {[ KFeature DUMMY := false ]} /\
  Version "1.2" None module_heap
  = (Raise (ValueError (invalid_version_msg "1.2" false)),
     snd (Version "1.2" None module_heap)) /\
  objs (snd (Version "1.2" None module_heap)) = objs module_heap.
Proof.
  split; [reflexivity|]. split; [vm_compute; reflexivity|].
  apply (Version_failure_leaves_no_instance module_heap _
           {[ KFeature DUMMY := false ]} "1.2" None
           (ValueError (invalid_version_msg "1.2" false)));
    [reflexivity|vm_compute; reflexivity].
Defined.

(** ** The parser *)

(** X2.  The two patterns agree where no wildcard stands: the parser
    without wildcards returns a tuple exactly when the parser with
    wildcards returns that tuple and the tuple holds no wildcard. *)
Theorem parser_modes_agree (s : string) (t : version_tuple) :
  _str_to_version s false = OK t <->
  _str_to_version s true = OK t /\ no_wild t = true.
Proof.
  split.
  - intros H. split; [now apply resolved_to_wild|].
    destruct (resolved_tuple _ _ H) as (a & b & c & -> & _). reflexivity.
  - intros [H Hn]. apply _str_to_version_ok in H
      as (a & b & c & tail & x & y & z & Hs & Ht & Cx & Cy & Cz & ->).
    assert (Hc : forall a x, x <> Wild -> component_of true a x -> component_of false a x).
    { intros a0 x0 Hx [H|(_ & _ & ->)]; [now left|now destruct Hx]. }
    apply _str_to_version_ok. exists a, b, c, tail, x, y, z.
    destruct x, y, z; try discriminate Hn.
    repeat split; try assumption; apply Hc; (discriminate || assumption).
Qed.

(** ** [match] *)

(** X3.  A version matches the string it was constructed from, and the
    string that [str] renders for it. *)
Theorem match_self (h h' : heap) (s : string) (features : option (gmap key bool))
    (v : ref) :
  Version s features h = (OK v, h') ->
  match_ v s h' = (OK true, h') /\
  exists r, __str__ v h' = (OK r, h') /\ match_ v r h' = (OK true, h').
Proof.
  intros Hv.
  apply Version_obj in Hv as (dflt & a & b & c & _ & Hp & Ha & Hb & Hc & Ho & _).
  split.
  - rewrite (match__run _ _ _ Ho), (resolved_to_wild _ _ Hp).
    cbn [ints rbind major minor patch]. now rewrite !py_in_int, !Z.eqb_refl.
  - eexists. split; [exact (__str___run _ _ _ Ho)|].
    rewrite (match__run _ _ _ Ho). cbn [major minor patch].
    rewrite parse_format_version by assumption.
    cbn [rbind]. now rewrite !py_in_int, !Z.eqb_refl.
Qed.

Lemma match_self_witness :
  Version "1.2.3" None module_heap = (OK 0%nat, sample_heap1) /\
  match_ 0%nat "1.2.3" sample_heap1 = (OK true, sample_heap1).
Proof.
  split; [vm_compute; reflexivity|].
  apply (match_self module_heap sample_heap1 "1.2.3" None 0%nat).
  vm_compute. reflexivity.
Defined.

(** X4.  Against the rendering of another version, [match] says what
    [==] says: [v.match(str(w))] is [v == w]. *)
Theorem match_str_is_eq (h h1 h2 : heap) (a b : string)
    (fa fb : option (gmap key bool)) (va vb : ref) :
  Version a fa h = (OK va, h1) ->
  Version b fb h1 = (OK vb, h2) ->
  exists (r : bool) (sb : string),
    __str__ vb h2 = (OK sb, h2) /\
    match_ va sb h2 = (OK r, h2) /\
    __eq__ va (OVersion vb) h2 = (OK r, h2).
Proof.
  intros Ha Hb.
  destruct (two_versions _ _ _ _ _ _ _ _ _ Ha Hb)
    as (la & lb & a1 & a2 & a3 & b1 & b2 & b3 & Hoa & Hob & _ & _ & _ & (? & ? & ?) & _).
  do 2 eexists. split; [exact (__str___run _ _ _ Hob)|].
  rewrite (match__run _ _ _ Hoa), (__eq___version _ _ _ _ _ Hoa Hob).
  cbn [major minor patch]. rewrite parse_format_version by assumption.
  cbn [rbind]. rewrite !py_in_int. split; reflexivity.
Qed.

Lemma match_str_is_eq_witness :
  Version "1.2.3" None module_heap = (OK 0%nat, sample_heap1) /\
  Version "1.10.0" None sample_heap1 = (OK 1%nat, sample_heap2) /\
  exists (r : bool) (sb : string),
    __str__ 1%nat sample_heap2 = (OK sb, sample_heap2) /\
    match_ 0%nat sb sample_heap2 = (OK r, sample_heap2) /\
    __eq__ 0%nat (OVersion 1%nat) sample_heap2 = (OK r, sample_heap2).
Proof.
  split; [vm_compute; reflexivity|]. split; [vm_compute; reflexivity|].
  apply (match_str_is_eq module_heap sample_heap1 sample_heap2
           "1.2.3" "1.10.0" None None 0%nat 1%nat);
    vm_compute; reflexivity.
Defined.

(** X5.  A pattern that the parser with wildcards refuses makes [match]
    raise the [ValueError] whose message ends in "digits or wildcard.",
    on any receiver and without touching the heap. *)
Theorem match_invalid_pattern (self : ref) (h : heap) (s : string) (e : exn) :
  _str_to_version s true = Raise e ->
  match_ self s h
  = (Raise (ValueError ("Invalid version '" ++ s
       ++ "'. Format should be x.y.z with {x,y,z} being digits or wildcard.")), h).
Proof.
  intros H. pose proof (_str_to_version_raises _ _ _ H) as ->.
  unfold match_, bind, lift. rewrite H. f_equal. f_equal. f_equal.
  unfold invalid_version_msg. rewrite !append_assoc. reflexivity.
Qed.

Lemma match_invalid_pattern_witness :
  _str_to_version "1.x.3" true = Raise (ValueError (invalid_version_msg "1.x.3" true)) /\
  match_ 0%nat "1.x.3" sample_heap1
  = (Raise (ValueError
      "Invalid version '1.x.3'. Format should be x.y.z with {x,y,z} being digits or wildcard."),
     sample_heap1).
Proof.
  split; [reflexivity|].
  apply (match_invalid_pattern 0%nat sample_heap1 "1.x.3"
           (ValueError (invalid_version_msg "1.x.3" true))).
  reflexivity.
Defined.

(** ** The six operators *)

(** X6.  Two constructed versions hold in their fields the integer
    triples that the parser reads from their strings; between them the
    operators that [total_ordering] derives agree with the
    lexicographic order of these triples: [<=] is "smaller or equal",
    [>=] is "greater or equal" (it is computed as "not smaller"), [!=]
    is "different"; none of them changes the heap. *)
Theorem derived_operators (h h1 h2 : heap) (a b : string)
    (fa fb : option (gmap key bool)) (va vb : ref) :
  Version a fa h = (OK va, h1) ->
  Version b fb h1 = (OK vb, h2) ->
  exists (oa ob : instance) (ta tb : Z * Z * Z) (le ge ne : bool),
    _str_to_version a false = OK (ints ta) /\
    _str_to_version b false = OK (ints tb) /\
    objs h2 !! va = Some oa /\
    objs h2 !! vb = Some ob /\
    (major oa, minor oa, patch oa) = ints ta /\
    (major ob, minor ob, patch ob) = ints tb /\
    tuple va h2 = (OK (ints ta), h2) /\
    tuple vb h2 = (OK (ints tb), h2) /\
    __le__ va (OVersion vb) h2 = (OK le, h2) /\
    __ge__ va (OVersion vb) h2 = (OK ge, h2) /\
    __ne__ va (OVersion vb) h2 = (OK ne, h2) /\
    (le = true <-> lex_lt ta tb \/ ta = tb) /\
    (ge = true <-> lex_lt tb ta \/ ta = tb) /\
    (ne = true <-> ta <> tb).
Proof.
  intros Ha Hb.
  destruct (two_versions _ _ _ _ _ _ _ _ _ Ha Hb)
    as (la & lb & a1 & a2 & a3 & b1 & b2 & b3 & Hoa & Hob & Pa & Pb & _).
  eexists _, _, (a1, a2, a3), (b1, b2, b3).
  destruct (tuple_ltb_ints (a1, a2, a3) (b1, b2, b3)) as (lt & Hlt & Hlt').
  pose proof (tuple_eqb_ints (a1, a2, a3) (b1, b2, b3)) as Heq'.
  pose proof (compare_version OpLe _ _ _ _ _ Hoa Hob) as Hle.
  pose proof (compare_version OpGe _ _ _ _ _ Hoa Hob) as Hge.
  pose proof (compare_version OpNe _ _ _ _ _ Hoa Hob) as Hne.
  cbn [ints] in Hlt, Heq'.
  cbn [compare cmp_tuples] in Hle, Hge, Hne. unfold tuple_of in Hle, Hge, Hne.
  cbn [major minor patch] in Hle, Hge, Hne. rewrite Hlt in Hle, Hge.
  cbn [rbind] in Hle, Hge.
  set (eq := tuple_eqb (CInt a1, CInt a2, CInt a3) (CInt b1, CInt b2, CInt b3)) in *.
  exists (lt || eq), (negb lt), (negb eq).
  split; [exact Pa|]. split; [exact Pb|].
  split; [exact Hoa|]. split; [exact Hob|].
  split; [reflexivity|]. split; [reflexivity|].
  split; [exact (tuple_run _ _ _ Hoa)|]. split; [exact (tuple_run _ _ _ Hob)|].
  split; [exact Hle|]. split; [exact Hge|]. split; [exact Hne|].
  pose proof (lex_lt_trichotomy (a1, a2, a3) (b1, b2, b3)) as Tri.
  pose proof (lex_lt_irrefl (a1, a2, a3)) as Irr.
  assert (Asym : lex_lt (a1, a2, a3) (b1, b2, b3) ->
                 lex_lt (b1, b2, b3) (a1, a2, a3) -> False).
  { intros L G. exact (Irr (lex_lt_trans _ _ _ L G)). }
  assert (NE1 : lex_lt (a1, a2, a3) (b1, b2, b3) -> (a1, a2, a3) <> (b1, b2, b3)).
  { intros L E. rewrite <- E in L. exact (Irr L). }
  assert (NE2 : lex_lt (b1, b2, b3) (a1, a2, a3) -> (a1, a2, a3) <> (b1, b2, b3)).
  { intros L E. rewrite <- E in L. exact (Irr L). }
  rewrite orb_true_iff, !negb_true_iff.
  destruct lt, eq; intuition (try discriminate; try congruence).
Qed.

(** At ["1.2.3"] and ["1.10.0"]: [<=] and [!=] are [True], [>=] is
    [False]. *)
Lemma derived_operators_witness :
  Version "1.2.3" None module_heap = (OK 0%nat, sample_heap1) /\
  Version "1.10.0" None sample_heap1 = (OK 1%nat, sample_heap2) /\
  (exists (oa ob : instance) (ta tb : Z * Z * Z) (le ge ne : bool),
    _str_to_version "1.2.3" false = OK (ints ta) /\
    _str_to_version "1.10.0" false = OK (ints tb) /\
    objs sample_heap2 !! 0%nat = Some oa /\
    objs sample_heap2 !! 1%nat = Some ob /\
    (major oa, minor oa, patch oa) = ints ta /\
    (major ob, minor ob, patch ob) = ints tb /\
    tuple 0%nat sample_heap2 = (OK (ints ta), sample_heap2) /\
    tuple 1%nat sample_heap2 = (OK (ints tb), sample_heap2) /\
    __le__ 0%nat (OVersion 1%nat) sample_heap2 = (OK le, sample_heap2) /\
    __ge__ 0%nat (OVersion 1%nat) sample_heap2 = (OK ge, sample_heap2) /\
    __ne__ 0%nat (OVersion 1%nat) sample_heap2 = (OK ne, sample_heap2) /\
    (le = true <-> lex_lt ta tb \/ ta = tb) /\
    (ge = true <-> lex_lt tb ta \/ ta = tb) /\
    (ne = true <-> ta <> tb)) /\
  __le__ 0%nat (OVersion 1%nat) sample_heap2 = (OK true, sample_heap2) /\
  __ge__ 0%nat (OVersion 1%nat) sample_heap2 = (OK false, sample_heap2) /\
  __ne__ 0%nat (OVersion 1%nat) sample_heap2 = (OK true, sample_heap2).
Proof.
  split; [vm_compute; reflexivity|]. split; [vm_compute; reflexivity|].
  split.
  - apply (derived_operators module_heap sample_heap1 sample_heap2
             "1.2.3" "1.10.0" None None 0%nat 1%nat);
      vm_compute; reflexivity.
  - repeat split; vm_compute; reflexivity.
Defined.

(** A constructed version, in any later heap. *)
Lemma live_version (h h' h'' : heap) (s : string)
    (features : option (gmap key bool)) (v : ref) :
  Version s features h = (OK v, h') ->
  heap_extends h' h'' ->
  exists (l : ref) (a b c : Z),
    objs h'' !! v = Some {| _features := l; major := CInt a;
                            minor := CInt b; patch := CInt c |} /\
    _str_to_version s false = OK (CInt a, CInt b, CInt c) /\
    0 <= a /\ 0 <= b /\ 0 <= c.
Proof.
  intros Hv Ext.
  apply Version_obj in Hv as (dflt & a & b & c & _ & Hp & ? & ? & ? & Ho & _).
  exists (length (dicts h)), a, b, c.
  split; [exact (heap_extends_obj _ _ _ _ Ext Ho)|]. auto.
Qed.

Lemma Version_extends (h h' : heap) (s : string)
    (features : option (gmap key bool)) (r : result ref) :
  Version s features h = (r, h') -> heap_extends h h'.
Proof.
  intros H. pose proof (allocates_Version s features h) as Ext.
  now rewrite H in Ext.
Qed.

(** X7.  [<] between constructed versions is a strict order: no version
    is smaller than itself, every version equals itself, and [<] is
    transitive. *)
Theorem lt_strict_order (h h1 h2 h3 : heap) (a b c : string)
    (fa fb fc : option (gmap key bool)) (va vb vc : ref) :
  Version a fa h = (OK va, h1) ->
  Version b fb h1 = (OK vb, h2) ->
  Version c fc h2 = (OK vc, h3) ->
  __lt__ va (OVersion va) h3 = (OK false, h3) /\
  __eq__ va (OVersion va) h3 = (OK true, h3) /\
  (__lt__ va (OVersion vb) h3 = (OK true, h3) ->
   __lt__ vb (OVersion vc) h3 = (OK true, h3) ->
   __lt__ va (OVersion vc) h3 = (OK true, h3)).
Proof.
  intros Ha Hb Hc.
  pose proof (Version_extends _ _ _ _ _ Hb) as E12.
  pose proof (Version_extends _ _ _ _ _ Hc) as E23.
  destruct (live_version _ _ h3 _ _ _ Ha (transitivity E12 E23))
    as (la & a1 & a2 & a3 & Hoa & _).
  destruct (live_version _ _ h3 _ _ _ Hb E23) as (lb & b1 & b2 & b3 & Hob & _).
  destruct (live_version _ _ h3 _ _ _ Hc (reflexivity h3))
    as (lc & c1 & c2 & c3 & Hoc & _).
  rewrite (__lt___version _ _ _ _ _ Hoa Hoa), (__eq___version _ _ _ _ _ Hoa Hoa),
    (__lt___version _ _ _ _ _ Hoa Hob), (__lt___version _ _ _ _ _ Hob Hoc),
    (__lt___version _ _ _ _ _ Hoa Hoc).
  unfold tuple_of. cbn [major minor patch].
  destruct (tuple_ltb_ints (a1, a2, a3) (a1, a2, a3)) as (raa & Eaa & Haa).
  destruct (tuple_ltb_ints (a1, a2, a3) (b1, b2, b3)) as (rab & Eab & Hab).
  destruct (tuple_ltb_ints (b1, b2, b3) (c1, c2, c3)) as (rbc & Ebc & Hbc).
  destruct (tuple_ltb_ints (a1, a2, a3) (c1, c2, c3)) as (rac & Eac & Hac).
  pose proof (proj2 (tuple_eqb_ints (a1, a2, a3) (a1, a2, a3)) eq_refl) as Eq.
  cbn [ints] in Eaa, Eab, Ebc, Eac, Eq. rewrite Eaa, Eab, Ebc, Eac, Eq.
  split; [|split; [reflexivity|]].
  - f_equal. f_equal. apply not_true_is_false. intros L%Haa.
    now apply lex_lt_irrefl in L.
  - intros [= ->] [= ->]. f_equal. f_equal. apply Hac.
    eapply lex_lt_trans; [now apply Hab|now apply Hbc].
Qed.

Lemma lt_strict_order_witness :
  Version "1.2.3" None module_heap = (OK 0%nat, sample_heap1) /\
  Version "1.10.0" None sample_heap1 = (OK 1%nat, sample_heap2) /\
  Version "2.0.0" None sample_heap2 = (OK 2%nat, sample_heap3) /\
  __lt__ 0%nat (OVersion 1%nat) sample_heap3 = (OK true, sample_heap3) /\
  __lt__ 1%nat (OVersion 2%nat) sample_heap3 = (OK true, sample_heap3) /\
  __lt__ 0%nat (OVersion 2%nat) sample_heap3 = (OK true, sample_heap3).
Proof.
  split; [vm_compute; reflexivity|]. split; [vm_compute; reflexivity|].
  split; [vm_compute; reflexivity|]. split; [vm_compute; reflexivity|].
  split; [vm_compute; reflexivity|].
  apply (lt_strict_order module_heap sample_heap1 sample_heap2 sample_heap3
           "1.2.3" "1.10.0" "2.0.0" None None None 0%nat 1%nat 2%nat);
    vm_compute; reflexivity.
Defined.

(** X8.  The features take no part in a comparison: two versions
    constructed from one string with different [features] are equal,
    and neither is smaller. *)
Theorem eq_ignores_features (h h1 h2 : heap) (s : string)
    (f1 f2 : option (gmap key bool)) (v1 v2 : ref) :
  Version s f1 h = (OK v1, h1) ->
  Version s f2 h1 = (OK v2, h2) ->
  __eq__ v1 (OVersion v2) h2 = (OK true, h2) /\
  __lt__ v1 (OVersion v2) h2 = (OK false, h2) /\
  __gt__ v1 (OVersion v2) h2 = (OK false, h2).
Proof.
  intros H1 H2.
  destruct (two_versions _ _ _ _ _ _ _ _ _ H1 H2)
    as (la & lb & a1 & a2 & a3 & b1 & b2 & b3 & Hoa & Hob & Pa & Pb & _).
  rewrite Pa in Pb. injection Pb as <- <- <-.
  pose proof (compare_version OpGt _ _ _ _ _ Hoa Hob) as Hgt.
  cbn [compare cmp_tuples] in Hgt.
  rewrite Hgt, (__eq___version _ _ _ _ _ Hoa Hob), (__lt___version _ _ _ _ _ Hoa Hob).
  unfold tuple_of. cbn [major minor patch].
  pose proof (proj2 (tuple_eqb_ints (a1, a2, a3) (a1, a2, a3)) eq_refl) as Eq.
  destruct (tuple_ltb_ints (a1, a2, a3) (a1, a2, a3)) as (r & Er & Hr).
  assert (r = false) as ->.
  { apply not_true_is_false. intros L%Hr. now apply lex_lt_irrefl in L. }
  cbn [ints] in Eq, Er. rewrite Eq, Er. auto.
Qed.

Lemma eq_ignores_features_witness :
  Version "1.2.3" None module_heap = (OK 0%nat, sample_heap1) /\
  Version "1.2.3" (Some {[ KFeature DUMMY := true ]}) sample_heap1
  = (OK 1%nat, snd (Version "1.2.3" (Some {[ KFeature DUMMY := true ]}) sample_heap1)) /\
  __eq__ 0%nat (OVersion 1%nat)
    (snd (Version "1.2.3" (Some {[ KFeature DUMMY := true ]}) sample_heap1))
  = (OK true, snd (Version "1.2.3" (Some {[ KFeature DUMMY := true ]}) sample_heap1)).
Proof.
  split; [vm_compute; reflexivity|]. split; [vm_compute; reflexivity|].
  apply (eq_ignores_features module_heap sample_heap1 _ "1.2.3" None
           (Some {[ KFeature DUMMY := true ]}) 0%nat 1%nat);
    vm_compute; reflexivity.
Defined.

(** ** More on the parser *)

Lemma py_int_leading_zero (a : string) :
  is_number a = true -> py_int (String "0" a) = py_int a.
Proof.
  intros H. destruct a as [|c a]; [discriminate|].
  destruct (uint_of_digits _ H) as [d Hd].
  unfold py_int, NilZero.uint_of_string.
  change (NilEmpty.uint_of_string (String "0" (String c a)))
    with (DecimalString.uint_of_char "0" (NilEmpty.uint_of_string (String c a))).
  rewrite Hd. reflexivity.
Qed.

Lemma component_of_leading_zero (a : string) (x : component) :
  component_of false a x -> component_of false (String "0" a) x.
Proof.
  intros [(Hn & n & Hi & Hpos & ->)|(Hw & _)]; [|discriminate].
  left. split.
  - destruct a; [discriminate|]. exact Hn.
  - exists n. rewrite (py_int_leading_zero a Hn). auto.
Qed.

(** X9.  A newline after a string of the grammar is overlooked, with or
    without wildcards: the string with the newline is not of the
    grammar, and the parser returns for it the tuple of the string
    without. *)
Theorem trailing_newline_overlooked (wild : bool) (s : string) :
  version_grammar wild s ->
  ~ version_grammar wild (s ++ nl) /\
  exists t, _str_to_version s wild = OK t /\ _str_to_version (s ++ nl) wild = OK t.
Proof.
  intros (a & b & c & -> & Ha & Hb & Hc).
  assert (Hassoc : (a ++ "." ++ b ++ "." ++ c) ++ nl = a ++ "." ++ b ++ "." ++ c ++ nl)
    by now rewrite !append_assoc.
  split.
  - intros G. apply version_grammarb_spec in G. revert G.
    unfold version_grammarb. rewrite Hassoc.
    rewrite (split_version_complete wild a b c nl Ha Hb Hc eq_refl).
    intros G. apply String.eqb_eq in G. apply (f_equal String.length) in G.
    rewrite <- Hassoc, length_append in G. simpl in G. lia.
  - destruct (convert_component _ _ Ha) as (x & _ & Cx).
    destruct (convert_component _ _ Hb) as (y & _ & Cy).
    destruct (convert_component _ _ Hc) as (z & _ & Cz).
    exists (x, y, z). split; apply _str_to_version_ok.
    + exists a, b, c, "", x, y, z. rewrite append_nil_r. auto 10.
    + exists a, b, c, nl, x, y, z. auto 10.
Qed.

Lemma trailing_newline_overlooked_witness :
  version_grammar true "1.*.3" /\
  ~ version_grammar true ("1.*.3" ++ nl) /\
  exists t, _str_to_version "1.*.3" true = OK t /\
            _str_to_version ("1.*.3" ++ nl) true = OK t.
Proof.
  split; [apply version_grammarb_spec; reflexivity|].
  apply (trailing_newline_overlooked true "1.*.3").
  apply version_grammarb_spec. reflexivity.
Defined.

(** X10.  A zero put before any component of a version string without
    wildcard changes nothing: the string is accepted as before and the
    tuple is the same. *)
Theorem leading_zero_ignored (a b c : string) (t : version_tuple) :
  _str_to_version (a ++ "." ++ b ++ "." ++ c) false = OK t ->
  is_number a = true -> is_number b = true -> is_number c = true ->
  _str_to_version (("0" ++ a) ++ "." ++ b ++ "." ++ c) false = OK t /\
  _str_to_version (a ++ "." ++ ("0" ++ b) ++ "." ++ c) false = OK t /\
  _str_to_version (a ++ "." ++ b ++ "." ++ ("0" ++ c)) false = OK t.
Proof.
  intros H Ha Hb Hc.
  destruct (convert_number a Ha) as (n1 & I1 & _ & P1).
  destruct (convert_number b Hb) as (n2 & I2 & _ & P2).
  destruct (convert_number c Hc) as (n3 & I3 & _ & P3).
  assert (C1 : component_of false a (CInt n1)) by (left; eauto 6).
  assert (C2 : component_of false b (CInt n2)) by (left; eauto 6).
  assert (C3 : component_of false c (CInt n3)) by (left; eauto 6).
  assert (Ht : t = (CInt n1, CInt n2, CInt n3)).
  { assert (E : _str_to_version (a ++ "." ++ b ++ "." ++ c) false
                = OK (CInt n1, CInt n2, CInt n3)).
    { apply _str_to_version_ok. exists a, b, c, "", (CInt n1), (CInt n2), (CInt n3).
      rewrite append_nil_r. auto 10. }
    rewrite E in H. now injection H. }
  subst t. repeat split; apply _str_to_version_ok.
  - exists ("0" ++ a), b, c, "", (CInt n1), (CInt n2), (CInt n3).
    rewrite append_nil_r.
    repeat split; try reflexivity; try assumption; try (now left);
      apply component_of_leading_zero; assumption.
  - exists a, ("0" ++ b), c, "", (CInt n1), (CInt n2), (CInt n3).
    rewrite append_nil_r.
    repeat split; try reflexivity; try assumption; try (now left);
      apply component_of_leading_zero; assumption.
  - exists a, b, ("0" ++ c), "", (CInt n1), (CInt n2), (CInt n3).
    rewrite append_nil_r.
    repeat split; try reflexivity; try assumption; try (now left);
      apply component_of_leading_zero; assumption.
Qed.

Lemma leading_zero_ignored_witness :
  _str_to_version ("1" ++ "." ++ "20" ++ "." ++ "3") false = OK (CInt 1, CInt 20, CInt 3) /\
  _str_to_version ("1" ++ "." ++ ("0" ++ "20") ++ "." ++ "3") false
  = OK (CInt 1, CInt 20, CInt 3).
Proof.
  split; [reflexivity|].
  apply (leading_zero_ignored "1" "20" "3" (CInt 1, CInt 20, CInt 3)); reflexivity.
Defined.

(** ** [str] and the constructor *)

(** X11.  What [str] renders for a constructed version is a string of
    the grammar without wildcard; the constructor accepts it, with any
    [features], and the version it builds equals the first and renders
    the same. *)
Theorem str_constructs_equal (h h' : heap) (s : string)
    (features f2 : option (gmap key bool)) (v : ref) :
  Version s features h = (OK v, h') ->
  exists (r : string) (w : ref) (h2 : heap),
    __str__ v h' = (OK r, h') /\
    version_grammar false r /\
    Version r f2 h' = (OK w, h2) /\
    __eq__ v (OVersion w) h2 = (OK true, h2) /\
    __str__ w h2 = (OK r, h2).
Proof.
  intros Hv.
  pose proof (Version_extends _ _ _ _ _ Hv) as Ext.
  apply Version_obj in Hv as (dflt & a & b & c & Hd & _ & Ha & Hb & Hc & Ho & _).
  pose proof (heap_extends_dict _ _ _ _ Ext Hd) as Hd'.
  destruct (Version (format_version (CInt a) (CInt b) (CInt c)) f2 h')
    as [rw h2] eqn:Ew.
  pose proof (Version_extends _ _ _ _ _ Ew) as Ext2.
  pose proof Ew as Ew'. rewrite (Version_run h' dflt) in Ew' by assumption.
  rewrite parse_format_version in Ew' by assumption. cbv zeta iota beta in Ew'.
  injection Ew' as <- Hh2.
  assert (How : objs h2 !! length (objs h')
                = Some {| _features := length (dicts h'); major := CInt a;
                          minor := CInt b; patch := CInt c |}).
  { rewrite <- Hh2. simpl. now apply list_lookup_middle. }
  pose proof (heap_extends_obj _ _ _ _ Ext2 Ho) as Ho2.
  exists (format_version (CInt a) (CInt b) (CInt c)), (length (objs h')), h2.
  split; [exact (__str___run _ _ _ Ho)|].
  split; [now apply format_version_grammar|].
  split; [exact Ew|].
  split; [|exact (__str___run _ _ _ How)].
  rewrite (__eq___version _ _ _ _ _ Ho2 How). unfold tuple_of.
  cbn [major minor patch].
  pose proof (proj2 (tuple_eqb_ints (a, b, c) (a, b, c)) eq_refl) as Eq.
  cbn [ints] in Eq. now rewrite Eq.
Qed.

Lemma str_constructs_equal_witness :
  Version "1.2.3" None module_heap = (OK 0%nat, sample_heap1) /\
  exists (r : string) (w : ref) (h2 : heap),
    __str__ 0%nat sample_heap1 = (OK r, sample_heap1) /\
    version_grammar false r /\
    Version r None sample_heap1 = (OK w, h2) /\
    __eq__ 0%nat (OVersion w) h2 = (OK true, h2) /\
    __str__ w h2 = (OK r, h2).
Proof.
  split; [vm_compute; reflexivity|].
  apply (str_constructs_equal module_heap sample_heap1 "1.2.3" None None 0%nat).
  vm_compute. reflexivity.
Defined.

(** ** What stays as it is *)

Lemma act_extends (a : action) (h : heap) : heap_extends h (act a h).
Proof.
  destruct a as [s features|self o]; cbn [act].
  - apply allocates_Version.
  - apply perform_extends.
Qed.

Lemma run_actions_extends (acts : list action) (h : heap) :
  heap_extends h (run_actions acts h).
Proof.
  revert h. induction acts as [|a acts IH]; intros h; cbn [run_actions].
  - reflexivity.
  - etransitivity; [apply act_extends|apply IH].
Qed.

(** X12.  Whatever is constructed or called afterwards, with whatever
    [features], a version goes on answering [implements] from the
    defaults and the [features] it was constructed with, and the class
    attribute keeps the defaults. *)
Theorem features_stable (h h' : heap) (dflt : gmap key bool) (s : string)
    (features : option (gmap key bool)) (v : ref) (acts : list action) (f : key) :
  dicts h !! _DEFAULT_FEATURES = Some dflt ->
  Version s features h = (OK v, h') ->
  implements v f (run_actions acts h')
  = (dict_get (own_features dflt features) f, run_actions acts h') /\
  dicts (run_actions acts h') !! _DEFAULT_FEATURES = Some dflt.
Proof.
  intros Hd Hv.
  pose proof (Version_extends _ _ _ _ _ Hv) as Ext.
  pose proof (run_actions_extends acts h') as Ext'.
  apply Version_obj in Hv as (d0 & a & b & c & Hd0 & _ & _ & _ & _ & Ho & Hown).
  pose proof (eq_trans (eq_sym Hd0) Hd) as [= ->].
  split.
  - exact (implements_run _ v _ (heap_extends_obj _ _ _ _ Ext' Ho) _ f
             (heap_extends_dict _ _ _ _ Ext' Hown)).
  - exact (heap_extends_dict _ _ _ _ Ext' (heap_extends_dict _ _ _ _ Ext Hd)).
Qed.

Lemma features_stable_witness :
  dicts module_heap !! _DEFAULT_FEATURES = Some {[ KFeature DUMMY := false ]} /\
  Version "1.2.3" None module_heap = (OK 0%nat, sample_heap1) /\
  fst (implements 0%nat (KFeature DUMMY)
         (run_actions
            [Construct "2.0.0" (Some {[ KFeature DUMMY := true ]});
             Call 1%nat (DoCompare OpGt (OStr "1.0.0"))] sample_heap1))
  = OK false.
Proof.
  split; [reflexivity|]. split; [vm_compute; reflexivity|].
  rewrite (proj1 (features_stable module_heap sample_heap1
                    {[ KFeature DUMMY := false ]} "1.2.3" None 0%nat
                    [Construct "2.0.0" (Some {[ KFeature DUMMY := true ]});
                     Call 1%nat (DoCompare OpGt (OStr "1.0.0"))]
                    (KFeature DUMMY) eq_refl ltac:(vm_compute; reflexivity))).
  reflexivity.
Defined.

(** X13.  [Version.LATEST] is no version string: the constructor raises
    on it, and so does each of the six operators when an instance is
    compared with it. *)
Theorem LATEST_is_no_version (op : cmp_op) (h : heap) (v : ref) (o : instance)
    (dflt : gmap key bool) (features : option (gmap key bool)) :
  objs h !! v = Some o ->
  dicts h !! _DEFAULT_FEATURES = Some dflt ->
  fst (Version LATEST features h)
  = Raise (ValueError
      "Invalid version 'latest'. Format should be x.y.z with {x,y,z} being digits.") /\
  fst (compare op v (OStr LATEST) h)
  = Raise (ValueError
      "Invalid version 'latest'. Format should be x.y.z with {x,y,z} being digits.").
Proof.
  intros Hv Hd. split.
  - rewrite (Version_run h dflt) by assumption. reflexivity.
  - rewrite (compare_str op h v o dflt LATEST Hv Hd). reflexivity.
Qed.

Lemma LATEST_is_no_version_witness :
  objs sample_heap1 !! 0%nat
  = Some {| _features := 1%nat; major := CInt 1; minor := CInt 2; patch := CInt 3 |} /\
  dicts sample_heap1 !! _DEFAULT_FEATURES = Some {[ KFeature DUMMY := false ]} /\
  fst (compare OpEq 0%nat (OStr LATEST) sample_heap1)
  = Raise (ValueError
      "Invalid version 'latest'. Format should be x.y.z with {x,y,z} being digits.").
Proof.
  split; [reflexivity|]. split; [reflexivity|].
  apply (LATEST_is_no_version OpEq sample_heap1 0%nat
           {| _features := 1%nat; major := CInt 1; minor := CInt 2; patch := CInt 3 |}
           {[ KFeature DUMMY := false ]} None); reflexivity.
Defined.

Lemma reads_only_bind {A B} (m : M A) (f : A -> M B) :
  reads_only m -> (forall a, reads_only (f a)) -> reads_only (bind m f).
Proof.
  intros Hm Hf h. unfold bind. specialize (Hm h).
  destruct (m h) as [[a|e] h1]; simpl in *; subst h1; [apply Hf|reflexivity].
Qed.

Lemma reads_only_get_instance l : reads_only (get_instance l).
Proof. intros h. unfold get_instance. now destruct (objs h !! l). Qed.

Lemma reads_only_get_dict l : reads_only (get_dict l).
Proof. intros h. unfold get_dict. now destruct (dicts h !! l). Qed.

Lemma reads_only_tuple v : reads_only (tuple v).
Proof.
  apply reads_only_bind; [apply reads_only_get_instance|now intros o h].
Qed.

Lemma reads_only___eq__ v w : reads_only (__eq__ v (OVersion w)).
Proof.
  apply reads_only_bind; [apply reads_only_tuple|intros a].
  apply reads_only_bind; [now intros h|intros x].
  apply reads_only_bind; [apply reads_only_tuple|now intros b h].
Qed.

Lemma reads_only___lt__ v w : reads_only (__lt__ v (OVersion w)).
Proof.
  apply reads_only_bind; [apply reads_only_tuple|intros a].
  apply reads_only_bind; [now intros h|intros x].
  apply reads_only_bind; [apply reads_only_tuple|now intros b h].
Qed.

Lemma reads_only___ne__ v w : reads_only (__ne__ v (OVersion w)).
Proof.
  apply reads_only_bind; [apply reads_only___eq__|now intros b h].
Qed.

(** X14.  [implements], [str], [tuple], [match] and the six operators
    between two instances create nothing and change nothing: the heap
    after is the heap before, whether they return or raise. *)
Theorem methods_read_only (self : ref) (h : heap) :
  (forall f, snd (implements self f h) = h) /\
  snd (__str__ self h) = h /\
  snd (tuple self h) = h /\
  (forall s, snd (match_ self s h) = h) /\
  (forall op w, snd (compare op self (OVersion w) h) = h).
Proof.
  split; [|split; [|split; [|split]]].
  - intros f. revert h.
    apply reads_only_bind; [apply reads_only_get_instance|intros o].
    apply reads_only_bind; [apply reads_only_get_dict|intros d h].
    now destruct (d !! f).
  - revert h. apply reads_only_bind; [apply reads_only_get_instance|now intros o h].
  - apply reads_only_tuple.
  - intros s. revert h. apply reads_only_bind; [now intros h|intros [[a b] c]].
    apply reads_only_bind; [apply reads_only_get_instance|intros o h].
    destruct (py_in a _); [|reflexivity]. now destruct (py_in b _).
  - intros op w. revert h. destruct op; cbn [compare].
    + apply reads_only___eq__.
    + apply reads_only___ne__.
    + apply reads_only___lt__.
    + apply reads_only_bind; [apply reads_only___lt__|intros []];
        [now intros h|apply reads_only___eq__].
    + apply reads_only_bind; [apply reads_only___lt__|intros []]; cbn [negb];
        [now intros h|apply reads_only___ne__].
    + apply reads_only_bind; [apply reads_only___lt__|now intros b h].
Qed.

(** ** The cost of a string operand *)

(** The heap after a successful [Version(s)] without features. *)
Lemma transient_heap (h : heap) (dflt : gmap key bool) (s : string)
    (t : version_tuple) :
  dicts h !! _DEFAULT_FEATURES = Some dflt ->
  _str_to_version s false = OK t ->
  exists h1 w,
    Version s None h = (OK w, h1) /\
    tuple w h1 = (OK t, h1) /\
    heap_extends h h1 /\
    length (objs h1) = S (length (objs h)) /\
    length (dicts h1) = S (length (dicts h)).
Proof.
  intros Hd Hp. rewrite (Version_run h dflt) by assumption. cbv zeta.
  rewrite Hp. destruct t as [[ma mi] pa]. do 2 eexists.
  split; [reflexivity|]. split.
  - unfold tuple, bind, get_instance. cbn [alloc_obj alloc_dict objs].
    rewrite list_lookup_middle by reflexivity. reflexivity.
  - split.
    + etransitivity; [apply heap_extends_alloc_dict|apply heap_extends_alloc_obj].
    + cbn [alloc_obj alloc_dict objs dicts]. rewrite !length_app. simpl. lia.
Qed.

Lemma __lt___str_run (h : heap) (v : ref) (o : instance) (dflt : gmap key bool)
    (s : string) (t : version_tuple) :
  objs h !! v = Some o ->
  dicts h !! _DEFAULT_FEATURES = Some dflt ->
  _str_to_version s false = OK t ->
  exists h1,
    __lt__ v (OStr s) h = (tuple_ltb (tuple_of o) t, h1) /\
    heap_extends h h1 /\
    length (objs h1) = S (length (objs h)) /\
    length (dicts h1) = S (length (dicts h)).
Proof.
  intros Hv Hd Hp.
  destruct (transient_heap h dflt s t Hd Hp) as (h1 & w & Hw & Ht & Ext & L1 & L2).
  exists h1. split; [|auto].
  unfold __lt__, bind. rewrite (tuple_run h v o Hv). cbn [_validate_operand].
  now rewrite Hw, Ht.
Qed.

Lemma __eq___str_run (h : heap) (v : ref) (o : instance) (dflt : gmap key bool)
    (s : string) (t : version_tuple) :
  objs h !! v = Some o ->
  dicts h !! _DEFAULT_FEATURES = Some dflt ->
  _str_to_version s false = OK t ->
  exists h1,
    __eq__ v (OStr s) h = (OK (tuple_eqb (tuple_of o) t), h1) /\
    heap_extends h h1 /\
    length (objs h1) = S (length (objs h)) /\
    length (dicts h1) = S (length (dicts h)).
Proof.
  intros Hv Hd Hp.
  destruct (transient_heap h dflt s t Hd Hp) as (h1 & w & Hw & Ht & Ext & L1 & L2).
  exists h1. split; [|auto].
  unfold __eq__, bind. rewrite (tuple_run h v o Hv). cbn [_validate_operand].
  now rewrite Hw, Ht.
Qed.

(** X15.  Each comparison with a valid string builds a transient
    instance, with its own copy of the default dict.  [==], [!=], [<]
    and [>=] build one; [>] and [<=], which [total_ordering] derives
    from [<] and [==], build one when [<] holds and two when it does
    not: the string is then parsed a second time. *)
Theorem string_operand_instances (h : heap) (v : ref) (o : instance)
    (dflt : gmap key bool) (s : string) (t : version_tuple) (lt : bool) :
  objs h !! v = Some o ->
  dicts h !! _DEFAULT_FEATURES = Some dflt ->
  _str_to_version s false = OK t ->
  tuple_ltb (tuple_of o) t = OK lt ->
  let built (op : cmp_op) :=
    (length (objs (snd (compare op v (OStr s) h))) - length (objs h))%nat in
  built OpEq = 1%nat /\ built OpNe = 1%nat /\
  built OpLt = 1%nat /\ built OpGe = 1%nat /\
  built OpGt = (if lt then 1 else 2)%nat /\
  built OpLe = (if lt then 1 else 2)%nat.
Proof.
  intros Hv Hd Hp Hlt built. subst built. cbv beta.
  destruct (__eq___str_run h v o dflt s t Hv Hd Hp) as (he & Heq & _ & Le & _).
  destruct (__lt___str_run h v o dflt s t Hv Hd Hp) as (hl & Hl & Ext & Ll & _).
  rewrite Hlt in Hl.
  destruct (__eq___str_run hl v o dflt s t (heap_extends_obj _ _ _ _ Ext Hv)
              (heap_extends_dict _ _ _ _ Ext Hd) Hp) as (h2 & Heq2 & _ & L2 & _).
  cbn [compare]. unfold __ge__, __gt__, __le__, __ne__. unfold bind.
  rewrite Heq, Hl. cbn [snd ret].
  repeat split; try lia;
    destruct lt; cbn [negb ret snd]; rewrite ?Heq2; unfold ret; cbn [snd]; lia.
Qed.

Lemma string_operand_instances_witness :
  objs sample_heap1 !! 0%nat
  = Some {| _features := 1%nat; major := CInt 1; minor := CInt 2; patch := CInt 3 |} /\
  dicts sample_heap1 !! _DEFAULT_FEATURES = Some {[ KFeature DUMMY := false ]} /\
  _str_to_version "1.0.0" false = OK (CInt 1, CInt 0, CInt 0) /\
  (length (objs (snd (compare OpGt 0%nat (OStr "1.0.0") sample_heap1)))
   - length (objs sample_heap1))%nat = 2%nat.
Proof.
  split; [reflexivity|]. split; [reflexivity|]. split; [reflexivity|].
  apply (string_operand_instances sample_heap1 0%nat
           {| _features := 1%nat; major := CInt 1; minor := CInt 2; patch := CInt 3 |}
           {[ KFeature DUMMY := false ]} "1.0.0" (CInt 1, CInt 0, CInt 0) false);
    reflexivity.
Defined.

(** ** The language of the parser *)

Lemma component_of_is_component w (a : string) (x : component) :
  component_of w a x -> is_component w a = true.
Proof.
  intros [(Hn & _)|(Hw & Ha & _)]; apply is_component_cases; auto.
Qed.

(** X16.  The strings that the parser accepts, with or without
    wildcards, are the strings of the grammar and those strings
    followed by one newline, and no other; on every other string it
    raises [ValueError]. *)
Theorem parser_language (wild : bool) (s : string) :
  ((exists t, _str_to_version s wild = OK t) <->
   (version_grammar wild s \/ exists s0, s = s0 ++ nl /\ version_grammar wild s0)) /\
  ((forall t, _str_to_version s wild <> OK t) ->
   _str_to_version s wild = Raise (ValueError (invalid_version_msg s wild))).
Proof.
  split; [split|].
  - intros (t & H). apply _str_to_version_ok in H
      as (a & b & c & tail & x & y & z & -> & Ht & Cx & Cy & Cz & _).
    assert (G : version_grammar wild (a ++ "." ++ b ++ "." ++ c)).
    { exists a, b, c. split; [reflexivity|].
      repeat split; eapply component_of_is_component; eassumption. }
    destruct Ht as [->| ->].
    + left. now rewrite append_nil_r.
    + right. exists (a ++ "." ++ b ++ "." ++ c). split; [|exact G].
      now rewrite !append_assoc.
  - intros [G|(s0 & -> & G)].
    + now apply grammar_accepted.
    + destruct G as (a & b & c & -> & Ha & Hb & Hc).
      destruct (convert_component _ _ Ha) as (x & _ & Cx).
      destruct (convert_component _ _ Hb) as (y & _ & Cy).
      destruct (convert_component _ _ Hc) as (z & _ & Cz).
      exists (x, y, z). apply _str_to_version_ok.
      exists a, b, c, nl, x, y, z. rewrite !append_assoc. auto 10.
  - intros Hno. destruct (_str_to_version s wild) as [t|e] eqn:E.
    + now destruct (Hno t).
    + now rewrite (_str_to_version_raises _ _ _ E).
Qed.

(** ** Converse operators *)

Lemma bool_eq_by_iff (a b : bool) (P : Prop) :
  (a = true <-> P) -> (b = true <-> P) -> a = b.
Proof. destruct a, b; intuition congruence. Qed.

(** X17.  Swapping the two versions swaps the operator: [v < w] is
    [w > v], [v <= w] is [w >= v], and [v == w] is [w == v]. *)
Theorem operators_converse (h h1 h2 : heap) (a b : string)
    (fa fb : option (gmap key bool)) (va vb : ref) :
  Version a fa h = (OK va, h1) ->
  Version b fb h1 = (OK vb, h2) ->
  __lt__ va (OVersion vb) h2 = __gt__ vb (OVersion va) h2 /\
  __le__ va (OVersion vb) h2 = __ge__ vb (OVersion va) h2 /\
  __eq__ va (OVersion vb) h2 = __eq__ vb (OVersion va) h2.
Proof.
  intros Ha Hb.
  destruct (two_versions _ _ _ _ _ _ _ _ _ Ha Hb)
    as (la & lb & a1 & a2 & a3 & b1 & b2 & b3 & Hoa & Hob & _).
  pose proof (compare_version OpLt _ _ _ _ _ Hoa Hob) as Hlt.
  pose proof (compare_version OpLe _ _ _ _ _ Hoa Hob) as Hle.
  pose proof (compare_version OpEq _ _ _ _ _ Hoa Hob) as Heq.
  pose proof (compare_version OpGt _ _ _ _ _ Hob Hoa) as Hgt.
  pose proof (compare_version OpGe _ _ _ _ _ Hob Hoa) as Hge.
  pose proof (compare_version OpEq _ _ _ _ _ Hob Hoa) as Heq'.
  cbn [compare cmp_tuples] in *. unfold tuple_of in *. cbn [major minor patch] in *.
  rewrite Hlt, Hle, Heq, Hgt, Hge, Heq'.
  destruct (tuple_ltb_ints (a1, a2, a3) (b1, b2, b3)) as (lab & Eab & Hab).
  destruct (tuple_ltb_ints (b1, b2, b3) (a1, a2, a3)) as (lba & Eba & Hba).
  pose proof (tuple_eqb_ints (a1, a2, a3) (b1, b2, b3)) as Qab.
  pose proof (tuple_eqb_ints (b1, b2, b3) (a1, a2, a3)) as Qba.
  cbn [ints] in Eab, Eba, Qab, Qba. rewrite Eab, Eba. cbn [rbind].
  set (eab := tuple_eqb (CInt a1, CInt a2, CInt a3) (CInt b1, CInt b2, CInt b3)) in *.
  set (eba := tuple_eqb (CInt b1, CInt b2, CInt b3) (CInt a1, CInt a2, CInt a3)) in *.
  pose proof (lex_lt_trichotomy (a1, a2, a3) (b1, b2, b3)) as Tri.
  pose proof (lex_lt_irrefl (a1, a2, a3)) as Irr.
  assert (Asym : lex_lt (a1, a2, a3) (b1, b2, b3) ->
                 lex_lt (b1, b2, b3) (a1, a2, a3) -> False).
  { intros L G. exact (Irr (lex_lt_trans _ _ _ L G)). }
  assert (NE1 : lex_lt (a1, a2, a3) (b1, b2, b3) -> (a1, a2, a3) <> (b1, b2, b3)).
  { intros L E. rewrite <- E in L. exact (Irr L). }
  assert (NE2 : lex_lt (b1, b2, b3) (a1, a2, a3) -> (a1, a2, a3) <> (b1, b2, b3)).
  { intros L E. rewrite <- E in L. exact (Irr L). }
  assert (Sym : (a1, a2, a3) = (b1, b2, b3) <-> (b1, b2, b3) = (a1, a2, a3))
    by (split; congruence).
  assert (E1 : eab = eba).
  { apply (bool_eq_by_iff _ _ ((a1, a2, a3) = (b1, b2, b3))); tauto. }
  assert (E2 : lab = negb lba && negb eba).
  { apply (bool_eq_by_iff _ _ (lex_lt (a1, a2, a3) (b1, b2, b3))); [exact Hab|].
    rewrite andb_true_iff, !negb_true_iff.
    destruct lba, eba; intuition (try discriminate; try congruence). }
  assert (E3 : lab || eab = negb lba).
  { apply (bool_eq_by_iff _ _ (~ lex_lt (b1, b2, b3) (a1, a2, a3))).
    - rewrite orb_true_iff.
      destruct lab, eab; intuition (try discriminate; try congruence).
    - rewrite negb_true_iff.
      destruct lba; intuition (try discriminate; try congruence). }
  rewrite E3, E2, E1. auto.
Qed.

Lemma operators_converse_witness :
  Version "1.2.3" None module_heap = (OK 0%nat, sample_heap1) /\
  Version "1.10.0" None sample_heap1 = (OK 1%nat, sample_heap2) /\
  __lt__ 0%nat (OVersion 1%nat) sample_heap2 = __gt__ 1%nat (OVersion 0%nat) sample_heap2.
Proof.
  split; [vm_compute; reflexivity|]. split; [vm_compute; reflexivity|].
  apply (operators_converse module_heap sample_heap1 sample_heap2
           "1.2.3" "1.10.0" None None 0%nat 1%nat);
    vm_compute; reflexivity.
Defined.
